(** * NodeClassifier.utils.featurizer: a shallow embedding

    The module turns a dictionary of sessions (session key -> list of
    (timestamp, hex header) packets) into a feature vector.  Every Python
    function of [featurizer.py] is embedded under its own name.

    Conventions of the embedding (the module is read as Python 3)
    - Python [str] is [string]; the embedding is exact on ASCII text.
    - Python [int] is [Z]; counters that only ever grow from 0 are [nat].
    - A raised exception is the [Raise] branch of [result].
    - A [dict] / [defaultdict(int)] is an association list in insertion
      order (iteration order of a Python 3 dictionary).
    - True division of two integers is the exact rational ([Q], reduced);
      the float computed by Python is the rounding of that rational, and
      is equal to it whenever the rational is a binary fraction.
    - Module [Imp] gives [get_source] and [extract_features] a second
      time, with the mapping, the [defaultdict]s and the histograms as
      mutable objects in a store, and relates them to the first. *)

From Stdlib Require Import List String Ascii Bool Arith ZArith QArith Lia.
Import ListNotations.

Local Open Scope string_scope.
Local Open Scope list_scope.

(** ** Exceptions and the error monad *)

Inductive exn : Type :=
| IndexError
| ValueError
| KeyError
| AttributeError
| UnboundLocalError.

Inductive result (A : Type) : Type :=
| Ok (a : A)
| Raise (e : exn).

Arguments Ok {A} a.
Arguments Raise {A} e.

Definition bind {A B : Type} (r : result A) (k : A -> result B) : result B :=
  match r with
  | Ok a => k a
  | Raise e => Raise e
  end.

Notation "'do' x <- r ; k" := (bind r (fun x => k))
  (at level 10, x name, r at level 100, k at level 200).

(** [for x in l: st = body(st, x)], stopping at the first exception. *)
Fixpoint for_each {A S : Type} (body : S -> A -> result S) (l : list A) (st : S)
  : result S :=
  match l with
  | [] => Ok st
  | x :: l' => do st' <- body st x; for_each body l' st'
  end.

Definition returns {A : Type} (r : result A) : bool :=
  match r with Ok _ => true | Raise _ => false end.

(** ** Python strings *)

Module Py.

(** [s[i:j]] for [0 <= i <= j]: clipped to the string, never raises. *)
Definition slice (i j : nat) (s : string) : string := substring i (j - i) s.

(** [s[i]] for [0 <= i]: a one-character string, [IndexError] past the end. *)
Definition str_item (s : string) (i : nat) : result string :=
  match get i s with
  | Some c => Ok (String c "")
  | None => Raise IndexError
  end.

(** [l[i]] on a list, [0 <= i]. *)
Definition item {A : Type} (l : list A) (i : nat) : result A :=
  match nth_error l i with
  | Some a => Ok a
  | None => Raise IndexError
  end.

(** [s.split(sep)] for a one-character separator: always at least one
    piece, empty pieces are kept. *)
Fixpoint split (sep : ascii) (s : string) : list string :=
  match s with
  | "" => [""]
  | String c s' =>
      if Ascii.eqb c sep then "" :: split sep s'
      else match split sep s' with
           | piece :: rest => String c piece :: rest
           | [] => [String c ""]
           end
  end.

(** The characters of a string as one-character strings (what indexing and
    iterating a [str] yields). *)
Fixpoint chars (s : string) : list string :=
  match s with
  | "" => []
  | String c s' => String c "" :: chars s'
  end.

(** [[s[i:i+2] for i in range(0, len(s), 2)]] *)
Fixpoint pairs_of (s : string) : list string :=
  match s with
  | "" => []
  | String a "" => [String a ""]
  | String a (String b s') => String a (String b "") :: pairs_of s'
  end.

(** [sep.join(l)] *)
Definition join (sep : string) (l : list string) : string := concat sep l.

(** *** [int(s, base)] on text, for the bases used here (10 and 16)

    CPython's [PyLong_FromString]: optional white space, optional sign,
    for base 16 an optional [0x]/[0X] (after which one underscore may
    follow), then digits with single underscores between them, then
    optional white space up to the end.  Anything else is [ValueError]. *)

Definition is_space (c : ascii) : bool :=
  let n := nat_of_ascii c in
  ((9 <=? n) && (n <=? 13))%nat || (n =? 32)%nat.

Definition digit_value (c : ascii) : option Z :=
  let n := nat_of_ascii c in
  if ((48 <=? n) && (n <=? 57))%nat then Some (Z.of_nat (n - 48))
  else if ((97 <=? n) && (n <=? 122))%nat then Some (Z.of_nat (n - 87))
  else if ((65 <=? n) && (n <=? 90))%nat then Some (Z.of_nat (n - 55))
  else None.

Definition digit_in (base : Z) (c : ascii) : option Z :=
  match digit_value c with
  | Some d => if (d <? base)%Z then Some d else None
  | None => None
  end.

Fixpoint lstrip (s : string) : string :=
  match s with
  | String c s' => if is_space c then lstrip s' else s
  | "" => ""
  end.

(** Scanning after a first digit has been read: [acc] is the value so far.
    Returns the value and the unread rest, or [None] on a doubled or
    trailing underscore. *)
Fixpoint more_digits (base acc : Z) (s : string) : option (Z * string) :=
  match s with
  | "" => Some (acc, "")
  | String c s' =>
      match digit_in base c with
      | Some d => more_digits base (acc * base + d) s'
      | None =>
          if Ascii.eqb c "_" then
            match s' with
            | String c2 s'' =>
                match digit_in base c2 with
                | Some d => more_digits base (acc * base + d) s''
                | None => None
                end
            | "" => None
            end
          else Some (acc, s)
      end
  end.

Definition strip_sign (s : string) : bool * string :=
  match s with
  | String c s' =>
      if Ascii.eqb c "+" then (false, s')
      else if Ascii.eqb c "-" then (true, s')
      else (false, s)
  | "" => (false, s)
  end.

Definition strip_prefix (base : Z) (s : string) : string :=
  match s with
  | String c (String x s') =>
      if (base =? 16)%Z && Ascii.eqb c "0"
         && (Ascii.eqb x "x" || Ascii.eqb x "X")
      then match s' with
           | String u s'' => if Ascii.eqb u "_" then s'' else s'
           | "" => s'
           end
      else s
  | _ => s
  end.

Definition int_opt (base : Z) (s : string) : option Z :=
  let '(neg, s1) := strip_sign (lstrip s) in
  match strip_prefix base s1 with
  | String c s2 =>
      match digit_in base c with
      | Some d =>
          match more_digits base d s2 with
          | Some (v, rest) =>
              match lstrip rest with
              | "" => Some (if neg then (- v)%Z else v)
              | _ => None
              end
          | None => None
          end
      | None => None
      end
  | "" => None
  end.

Definition int (base : Z) (s : string) : result Z :=
  match int_opt base s with
  | Some v => Ok v
  | None => Raise ValueError
  end.

End Py.

(** ** Packets, sessions, session dictionaries *)

(** The timestamp of a packet is never inspected. *)
Definition timestamp : Type := Z.

(** What [packet_size] and the session readers may be handed: the pair
    [(timestamp, hex)] stored by the sessionizer, or a bare hex string. *)
Inductive packet : Type :=
| Pair (ts : timestamp) (hex : string)
| Bare (hex : string).

(** [packet[1]] *)
Definition packet_item1 (p : packet) : result string :=
  match p with
  | Pair _ hex => Ok hex
  | Bare hex => Py.str_item hex 1
  end.

Definition session : Type := list packet.
Definition session_key : Type := (string * string)%type.

(** A dictionary in insertion order; its keys are pairwise distinct. *)
Definition dict (K V : Type) : Type := list (K * V).
Definition session_dict : Type := dict session_key session.

Definition key_eqb (k1 k2 : session_key) : bool :=
  String.eqb (fst k1) (fst k2) && String.eqb (snd k1) (snd k2).

(** [d[key]] on a plain [dict] *)
Fixpoint dict_get {V : Type} (d : dict session_key V) (key : session_key)
  : result V :=
  match d with
  | [] => Raise KeyError
  | (k, v) :: d' => if key_eqb k key then Ok v else dict_get d' key
  end.

(** [d[k] += 1] on a [defaultdict(int)]: an existing entry is updated in
    place, a new one is appended. *)
Fixpoint incr (d : dict string nat) (k : string) : dict string nat :=
  match d with
  | [] => [(k, 1%nat)]
  | (k', n) :: d' =>
      if String.eqb k' k then (k', S n) :: d' else (k', n) :: incr d' k
  end.

(** [d[k]] read as a value: the stored count, 0 for a missing key. *)
Fixpoint count_of (d : dict string nat) (k : string) : nat :=
  match d with
  | [] => 0%nat
  | (k', n) :: d' => if String.eqb k' k then n else count_of d' k
  end.

Definition keys {K V : Type} (d : dict K V) : list K := map fst d.

(** ** The functions of featurizer.py *)

(** [extract_macs(packet)]: source MAC from [packet[12:24]], destination
    MAC from [packet[0:12]], each re-joined with colons. *)
Definition extract_macs (hex : string) : string * string :=
  let source_mac := Py.slice 12 24 hex in
  let dest_mac := Py.slice 0 12 hex in
  (Py.join ":" (Py.pairs_of source_mac), Py.join ":" (Py.pairs_of dest_mac)).

(** The argument of [is_private]: a string or a list of strings. *)
Inductive address : Type :=
| AStr (s : string)
| AList (l : list string).

Definition address_len (a : address) : nat :=
  match a with
  | AStr s => String.length s
  | AList l => List.length l
  end.

(** The first four lines of [is_private]: the value bound to [pairs], or
    [None] when neither branch assigns it. *)
Definition bind_pairs (a : address) : result (option (list string)) :=
  if (4 <? address_len a)%nat then
    match a with
    | AStr s => Ok (Some (Py.split "." s))
    | AList _ => Raise AttributeError
    end
  else if (address_len a =? 4)%nat then
    match a with
    | AStr s => Ok (Some (Py.chars s))
    | AList l => Ok (Some l)
    end
  else Ok None.

(** The three tests of [is_private] on a bound [pairs]. *)
Definition classify (pairs : list string) : result bool :=
  let private := false in
  do p0 <- Py.item pairs 0;
  let private := if String.eqb p0 "10" then true else private in
  do c192 <-
    (if String.eqb p0 "192"
     then do p1 <- Py.item pairs 1; Ok (String.eqb p1 "168")
     else Ok false);
  let private := if c192 then true else private in
  do c172 <-
    (if String.eqb p0 "172"
     then do p1 <- Py.item pairs 1;
          do v <- Py.int 10 p1;
          Ok ((16 <=? v)%Z && (v <=? 31)%Z)
     else Ok false);
  let private := if c172 then true else private in
  Ok private.

Definition is_private (a : address) : result bool :=
  do bound <- bind_pairs a;
  match bound with
  | Some pairs => classify pairs
  | None => Raise UnboundLocalError
  end.

(** [is_external(address_1, address_2)] *)
Definition is_external (address_1 address_2 : string) : bool :=
  if String.eqb (Py.slice 0 3 address_1) (Py.slice 0 3 address_2)
  then true
  else false.

(** [is_protocol] reads the protocol through [extract_protocol]:
    [session[0][1][46:48]]. *)
Definition extract_protocol (s : session) : result string :=
  do p <- Py.item s 0;
  do hex <- packet_item1 p;
  Ok (Py.slice 46 48 hex).

Definition is_protocol (s : session) (protocol : string) : result bool :=
  do p <- extract_protocol s;
  Ok (if String.eqb protocol p then true else false).

(** [packet_size(packet)]: the slice is taken before the [try]; only the
    conversion is guarded. *)
Definition packet_size (p : packet) : result Z :=
  do hex <- packet_item1 p;
  let size := Py.slice 32 36 hex in
  match Py.int 16 size with
  | Ok v => Ok v
  | Raise _ => Ok 0%Z
  end.

(** [sum] of a list comprehension whose elements may raise. *)
Fixpoint sum_results (l : list (result Z)) : result Z :=
  match l with
  | [] => Ok 0%Z
  | r :: l' => do v <- r; do t <- sum_results l'; Ok (v + t)%Z
  end.

(** The comprehension is built completely before [sum] runs, so the first
    exception in list order wins either way. *)
Definition extract_session_size (s : session) : result Z :=
  sum_results (map packet_size s).

(** *** get_source *)

(** The six counting dictionaries of [get_source]. *)
Record tallies : Type := mkTallies {
  all_ips : dict string nat;
  all_macs : dict string nat;
  incoming_ips : dict string nat;
  incoming_macs : dict string nat;
  outgoing_ips : dict string nat;
  outgoing_macs : dict string nat
}.

Definition no_tallies : tallies := mkTallies [] [] [] [] [] [].

(** [x.split(':')[0]]: a split always has a first piece. *)
Definition before_colon (x : string) : string :=
  match Py.split ":" x with
  | piece :: _ => piece
  | [] => ""
  end.

(** [a and b] on two calls that may raise: [b] runs only if [a] is true. *)
Definition and_then (a : result bool) (b : result bool) : result bool :=
  do x <- a; if x then b else Ok false.

(** One turn of [for key in sessions]. *)
Definition get_source_body (sessions : session_dict) (t : tallies)
  (key : session_key) : result tallies :=
  let incoming_address := before_colon (snd key) in
  let outgoing_address := before_colon (fst key) in
  do sess <- dict_get sessions key;
  do pkt <- Py.item sess 0;
  do first_packet <- packet_item1 pkt;
  let '(source_mac, destination_mac) := extract_macs first_packet in
  do both <- and_then (is_private (AStr incoming_address))
                      (is_private (AStr outgoing_address));
  if both then
    let all_ips1 := incr (incr (all_ips t) incoming_address) outgoing_address in
    let all_macs1 := incr (incr (all_macs t) source_mac) destination_mac in
    let incoming_ips1 := incr (incoming_ips t) incoming_address in
    let incoming_macs1 := incr (incoming_macs t) source_mac in
    let outgoing_ips1 :=
      incr (incr (outgoing_ips t) outgoing_address) destination_mac in
    Ok (mkTallies all_ips1 all_macs1 incoming_ips1 incoming_macs1
                  outgoing_ips1 (outgoing_macs t))
  else Ok t.

(** [sorted(ks, key=..., reverse=True)]: stable, largest count first;
    elements with equal counts keep their order in [ks]. *)
Fixpoint insert_desc (count : string -> nat) (k : string) (l : list string)
  : list string :=
  match l with
  | [] => [k]
  | k' :: l' =>
      if (count k <? count k')%nat then k' :: insert_desc count k l'
      else k :: l
  end.

Fixpoint sorted_desc (count : string -> nat) (ks : list string) : list string :=
  match ks with
  | [] => []
  | k :: ks' => insert_desc count k (sorted_desc count ks')
  end.

(** What [get_source] hands back: the tuple [(None, 0, 0)] of its early
    return, or a MAC string. *)
Inductive source : Type :=
| NoneZeroZero
| Mac (mac : string).

Definition get_source (sessions : session_dict) : result source :=
  do t <- for_each (get_source_body sessions) (keys sessions) no_tallies;
  if (List.length sessions =? 0)%nat then Ok NoneZeroZero
  else
    let sorted_sources :=
      sorted_desc (count_of (all_macs t)) (keys (all_macs t)) in
    let capture_source :=
      match sorted_sources with
      | first :: _ => first
      | [] => "00:00:00:00:00:00"
      end in
    (* read, never returned *)
    let num_incoming := count_of (incoming_macs t) capture_source in
    let num_outgoing := count_of (outgoing_macs t) capture_source in
    Ok (Mac capture_source).

(** *** extract_features *)

(** The counters of [extract_features]. *)
Record counters : Type := mkCounters {
  num_source_sess : list nat;
  num_destination_sess : list nat;
  num_sessions : nat;
  num_external : nat;
  num_tcp_sess : nat;
  num_udp_sess : nat;
  num_icmp_sess : nat;
  other_ips : dict string nat
}.

(** [[0]*max_port]: empty for a [max_port] of zero or less. *)
Definition zeros (max_port : Z) : list nat := repeat 0%nat (Z.to_nat max_port).

Definition initial_counters (max_port : Z) : counters :=
  mkCounters (zeros max_port) (zeros max_port) 0 0 0 0 0 [].

(** [a, b = l]: exactly two pieces or [ValueError]. *)
Definition unpack2 (l : list string) : result (string * string) :=
  match l with
  | [a; b] => Ok (a, b)
  | _ => Raise ValueError
  end.

Fixpoint bump_nth (i : nat) (l : list nat) : list nat :=
  match l, i with
  | [], _ => []
  | n :: l', O => S n :: l'
  | n :: l', S i' => n :: bump_nth i' l'
  end.

(** [l[i] += 1] with Python indexing: a negative [i] counts from the end,
    an index outside [-len(l) .. len(l)-1] is [IndexError]. *)
Definition list_incr (l : list nat) (i : Z) : result (list nat) :=
  let n := Z.of_nat (List.length l) in
  let j := if (i <? 0)%Z then (i + n)%Z else i in
  if ((0 <=? j) && (j <? n))%Z then Ok (bump_nth (Z.to_nat j) l)
  else Raise IndexError.

(** [source_mac == capture_source]: a string never equals the tuple. *)
Definition mac_is (mac : string) (capture_source : source) : bool :=
  match capture_source with
  | Mac m => String.eqb mac m
  | NoneZeroZero => false
  end.

(** [n += b] for a boolean [b]. *)
Definition add_bool (n : nat) (b : bool) : nat := if b then S n else n.

(** [if int(port) < max_port: hist[int(port)] += 1]; both conversions
    read the same string. *)
Definition bump_port (hist : list nat) (port : string) (max_port : Z)
  : result (list nat) :=
  do p <- Py.int 10 port;
  if (p <? max_port)%Z then list_incr hist p else Ok hist.

(** The block under [if source_mac == capture_source]. *)
Definition count_outgoing (max_port : Z) (c : counters) (sess : session)
  (address_1 port_1 address_2 port_2 : string) : result counters :=
  do private_2 <- is_private (AStr address_2);
  let other_ips1 :=
    if private_2 then incr (other_ips c) address_2 else other_ips c in
  let num_sessions1 := S (num_sessions c) in
  let num_external1 :=
    add_bool (num_external c) (is_external address_1 address_2) in
  do tcp <- is_protocol sess "06";
  do udp <- is_protocol sess "11";
  do icmp <- is_protocol sess "01";
  do num_source_sess1 <- bump_port (num_source_sess c) port_1 max_port;
  do num_destination_sess1 <-
    bump_port (num_destination_sess c) port_2 max_port;
  Ok (mkCounters num_source_sess1 num_destination_sess1 num_sessions1
        num_external1 (add_bool (num_tcp_sess c) tcp)
        (add_bool (num_udp_sess c) udp) (add_bool (num_icmp_sess c) icmp)
        other_ips1).

(** The block under [if destination_mac == capture_source]. *)
Definition count_incoming (c : counters) (address_1 : string)
  : result counters :=
  do private_1 <- is_private (AStr address_1);
  if private_1 then
    Ok (mkCounters (num_source_sess c) (num_destination_sess c)
          (num_sessions c) (num_external c) (num_tcp_sess c)
          (num_udp_sess c) (num_icmp_sess c)
          (incr (other_ips c) address_1))
  else Ok c.

(** One turn of [for key, session in session_dict.items()]. *)
Definition extract_features_body (capture_source : source) (max_port : Z)
  (c : counters) (entry : session_key * session) : result counters :=
  let '(key, sess) := entry in
  do ap1 <- unpack2 (Py.split ":" (fst key));
  let '(address_1, port_1) := ap1 in
  do ap2 <- unpack2 (Py.split ":" (snd key));
  let '(address_2, port_2) := ap2 in
  do pkt <- Py.item sess 0;
  do first_packet <- packet_item1 pkt;
  let '(source_mac, destination_mac) := extract_macs first_packet in
  do c1 <-
    (if mac_is source_mac capture_source
     then count_outgoing max_port c sess address_1 port_1 address_2 port_2
     else Ok c);
  if mac_is destination_mac capture_source
  then count_incoming c1 address_1
  else Ok c1.

(** The loop of [extract_features] for a resolved capture source. *)
Definition aggregate (session_dict0 : session_dict) (capture_source : source)
  (max_port : Z) : result counters :=
  for_each (extract_features_body capture_source max_port) session_dict0
    (initial_counters max_port).

(** [n / d] for a count [n] and a divisor [d >= 1]. *)
Definition true_div (n d : nat) : Q := Qred (Z.of_nat n # Pos.of_nat d).

(** Everything after the loop. *)
Definition normalise (c : counters) : list Q :=
  let num_port_sess := num_source_sess c ++ num_destination_sess c in
  let num_sessions1 :=
    if (num_sessions c =? 0)%nat then S (num_sessions c) else num_sessions c in
  let num_port_sess1 := map (fun n => true_div n num_sessions1) num_port_sess in
  let extra_features :=
    [ true_div (num_external c) num_sessions1;
      true_div (num_tcp_sess c) num_sessions1;
      true_div (num_udp_sess c) num_sessions1;
      true_div (num_icmp_sess c) num_sessions1 ] in
  num_port_sess1 ++ extra_features.

(** [capture_source=None] falls back on [get_source]. *)
Definition resolve (session_dict0 : session_dict)
  (capture_source : option source) : result source :=
  match capture_source with
  | None => get_source session_dict0
  | Some given => Ok given
  end.

Definition extract_features (session_dict0 : session_dict)
  (capture_source : option source) (max_port : Z)
  : result (list Q * source * list string) :=
  do capture_source1 <- resolve session_dict0 capture_source;
  do c <- aggregate session_dict0 capture_source1 max_port;
  Ok (normalise c, capture_source1, keys (other_ips c)).

(** * Reference notions used by the statements *)

(** ** Dotted quads and the RFC 1918 ranges *)

Definition digit_char (n : nat) : ascii := ascii_of_nat (48 + n).

(** An octet in canonical decimal: no sign, no leading zero. *)
Definition octet_string (n : nat) : string :=
  if (n <? 10)%nat then String (digit_char n) ""
  else if (n <? 100)%nat then
    String (digit_char (n / 10)) (String (digit_char (n mod 10)) "")
  else
    String (digit_char (n / 100))
      (String (digit_char ((n / 10) mod 10))
         (String (digit_char (n mod 10)) "")).

Definition dotted_quad (a b c d : nat) : string :=
  octet_string a ++ "." ++ octet_string b ++ "." ++ octet_string c ++ "."
  ++ octet_string d.

(** 10.0.0.0/8, 172.16.0.0/12, 192.168.0.0/16 on the first two octets. *)
Definition rfc1918 (a b : nat) : bool :=
  (a =? 10)%nat
  || ((a =? 172)%nat && (16 <=? b)%nat && (b <=? 31)%nat)
  || ((a =? 192)%nat && (b =? 168)%nat).

Fixpoint no_char (c : ascii) (s : string) : bool :=
  match s with
  | "" => true
  | String c' s' => negb (Ascii.eqb c' c) && no_char c s'
  end.

(** ** Hexadecimal numerals *)

(** Position of a character in a string of distinct characters. *)
Fixpoint position (c : ascii) (alphabet : string) : option Z :=
  match alphabet with
  | "" => None
  | String a rest =>
      if Ascii.eqb a c then Some 0%Z
      else option_map Z.succ (position c rest)
  end.

(** The value of a hex digit in either case. *)
Definition hex_digit (c : ascii) : option Z :=
  match position c "0123456789abcdef" with
  | Some d => Some d
  | None => position c "0123456789ABCDEF"
  end.

(** Positional value of a string of hex digits read after [acc]; [None]
    as soon as a character is not a hex digit. *)
Fixpoint hex_value_from (acc : Z) (s : string) : option Z :=
  match s with
  | "" => Some acc
  | String c s' =>
      match hex_digit c with
      | Some d => hex_value_from (acc * 16 + d) s'
      | None => None
      end
  end.

Definition hex_value (s : string) : option Z :=
  match s with
  | "" => None
  | _ => hex_value_from 0 s
  end.

(** The total-length field of a header: [hex[32:36]]. *)
Definition length_field (hex : string) : string := Py.slice 32 36 hex.

(** ** The two-session scenario

    An Ethernet + IPv4 header in hex: destination MAC, source MAC,
    EtherType 0800, version/IHL 45, TOS 00, total length 0028,
    identification, flags, TTL 40, then the protocol byte at [46:48]. *)
Definition header (dst_mac src_mac protocol : string) : string :=
  dst_mac ++ src_mac ++ "0800" ++ "4500" ++ "0028" ++ "00004000" ++ "40"
  ++ protocol ++ "0000c0a80105c0a8010a".

(** One TCP session 192.168.1.5:80 -> 192.168.1.10:4000 and one UDP
    session from the same MAC aa:aa:aa:aa:aa:aa to 192.168.1.11:53. *)
Definition scenario : session_dict :=
  [ (("192.168.1.5:80", "192.168.1.10:4000"),
     [Pair 0%Z (header "bbbbbbbbbbbb" "aaaaaaaaaaaa" "06")]);
    (("192.168.1.5:5353", "192.168.1.11:53"),
     [Pair 1%Z (header "cccccccccccc" "aaaaaaaaaaaa" "11")]) ].

(** ** Sightings of MAC addresses

    What [get_source] counts, stated on the entries of the mapping. *)

(** [session[0][1]] *)
Definition first_header (sess : session) : result string :=
  do pkt <- Py.item sess 0;
  packet_item1 pkt.

(** The test of [get_source] on the two addresses of a key. *)
Definition both_private (key : session_key) : result bool :=
  and_then (is_private (AStr (before_colon (snd key))))
           (is_private (AStr (before_colon (fst key)))).

(** The MACs one entry contributes: source then destination of its first
    packet when both addresses are private, nothing otherwise. *)
Definition sightings_of (entry : session_key * session) : list string :=
  match both_private (fst entry), first_header (snd entry) with
  | Ok true, Ok hex => [fst (extract_macs hex); snd (extract_macs hex)]
  | _, _ => []
  end.

Definition mac_sightings (sessions : session_dict) : list string :=
  flat_map sightings_of sessions.

Definition occurrences (sessions : session_dict) (mac : string) : nat :=
  count_occ string_dec (mac_sightings sessions) mac.

(** An entry the loop of [get_source] gets through: it has a first packet
    with a second component, and the privacy test returns. *)
Definition readable (entry : session_key * session) : bool :=
  returns (first_header (snd entry)) && returns (both_private (fst entry)).

(** ** Sessions seen from the capture source

    What [extract_features] counts, stated on the entries of the
    mapping. *)

(** The first packet of the entry has the capture source as source MAC. *)
Definition from_capture_source (capture_source : source)
  (entry : session_key * session) : bool :=
  match first_header (snd entry) with
  | Ok hex => mac_is (fst (extract_macs hex)) capture_source
  | Raise _ => false
  end.

(** [int(port_1)] for the key of the entry. *)
Definition source_port (entry : session_key * session) : result Z :=
  do ap1 <- unpack2 (Py.split ":" (fst (fst entry)));
  Py.int 10 (snd ap1).

Definition source_port_below (max_port : Z) (entry : session_key * session)
  : bool :=
  match source_port entry with
  | Ok p => (p <? max_port)%Z
  | Raise _ => false
  end.

Definition source_port_from (max_port : Z) (entry : session_key * session)
  : bool :=
  match source_port entry with
  | Ok p => (max_port <=? p)%Z
  | Raise _ => false
  end.

(** A port that reads as a natural number. *)
Definition port_ok (port : string) : bool :=
  match Py.int 10 port with
  | Ok p => (0 <=? p)%Z
  | Raise _ => false
  end.

(** An entry as the sessionizer stores it: both halves of the key are
    [address:port] with an address [is_private] accepts and a port that
    reads as a natural number, and the session has a first packet. *)
Definition well_formed (entry : session_key * session) : bool :=
  match unpack2 (Py.split ":" (fst (fst entry))),
        unpack2 (Py.split ":" (snd (fst entry))) with
  | Ok (address_1, port_1), Ok (address_2, port_2) =>
      returns (first_header (snd entry))
      && returns (is_private (AStr address_1))
      && returns (is_private (AStr address_2))
      && port_ok port_1 && port_ok port_2
  | _, _ => false
  end.

(** ** Helpers of the proofs *)

Definition agrees (r : result bool) (b : bool) : bool :=
  match r with
  | Ok b' => Bool.eqb b' b
  | Raise _ => false
  end.

Definition b2n (b : bool) : nat := if b then 1%nat else 0%nat.

Definition sized (max_port : Z) (c : counters) : Prop :=
  List.length (num_source_sess c) = Z.to_nat max_port /\
  List.length (num_destination_sess c) = Z.to_nat max_port.

(** The counters the loop ends with on the two-session scenario. *)
Definition scenario_counters : counters :=
  match aggregate scenario (Mac "aa:aa:aa:aa:aa:aa") 1024 with
  | Ok c => c
  | Raise _ => initial_counters 1024
  end.

(** What the proofs need of a hex digit, as one check per character. *)
Definition hex_digit_check (c : ascii) : bool :=
  match hex_digit c with
  | Some d =>
      match Py.digit_in 16 c with
      | Some d' => (d' =? d)%Z
      | None => false
      end
      && negb (Py.is_space c)
      && negb (Ascii.eqb c "+") && negb (Ascii.eqb c "-")
      && negb (Ascii.eqb c "x") && negb (Ascii.eqb c "X")
  | None => true
  end.

Definition sample_header : string :=
  "bbbbbbbbbbbbaaaaaaaaaaaa08004500002800004000400600000a0a0a01".

(** Two sessions in which aa:aa:aa:aa:aa:aa and bb:bb:bb:bb:bb:bb are
    both sighted twice; bb is the source of the first one. *)
Definition tied_sessions : session_dict :=
  [ (("192.168.1.10:4000", "192.168.1.5:80"),
     [Pair 0%Z (header "aaaaaaaaaaaa" "bbbbbbbbbbbb" "06")]);
    (("192.168.1.5:5353", "192.168.1.10:53"),
     [Pair 1%Z (header "bbbbbbbbbbbb" "aaaaaaaaaaaa" "11")]) ].

(** ** Frames and MAC addresses *)

(** Six groups of two characters: the octets of a MAC address. *)
Definition mac_octets (groups : list string) : bool :=
  (List.length groups =? 6)%nat
  && forallb (fun g => (String.length g =? 2)%nat) groups.

(** The hex of a frame: destination octets, source octets, then the rest
    of the header. *)
Definition frame (dst src : list string) (rest : string) : string :=
  (concat "" dst ++ concat "" src ++ rest)%string.

(** The condition under which the three tests of [is_private] answer
    [True] on the pieces [p0 :: rest]. *)
Definition private_pieces (pieces : list string) : Prop :=
  exists p0 rest, pieces = p0 :: rest /\
    (p0 = "10" \/
     (p0 = "192" /\ exists r, rest = "168" :: r) \/
     (p0 = "172" /\ exists p1 r v,
         rest = p1 :: r /\ Py.int 10 p1 = Ok v /\ (16 <= v <= 31)%Z)).

(** The first three characters of [a.] and [a'.] agree exactly when the
    octets do: one check per pair of octets. *)
Definition prefix_check (a a' : nat) : bool :=
  Bool.eqb
    (String.eqb (Py.slice 0 3 (octet_string a ++ "."))
                (Py.slice 0 3 (octet_string a' ++ ".")))
    (a =? a')%nat.

(** A hex digit is worth 0 to 15: one check per character. *)
Definition hex_digit_range (c : ascii) : bool :=
  match hex_digit c with
  | Some d => ((0 <=? d) && (d <? 16))%Z
  | None => true
  end.

(** A packet whose second component can be taken: a pair, or a bare
    string of two characters or more. *)
Definition has_item1 (p : packet) : bool :=
  match p with
  | Pair _ _ => true
  | Bare hex => (2 <=? String.length hex)%nat
  end.

(** ** More of what [extract_features] counts *)

(** The first packet of the entry has the capture source as destination
    MAC. *)
Definition to_capture_source (capture_source : source)
  (entry : session_key * session) : bool :=
  match first_header (snd entry) with
  | Ok hex => mac_is (snd (extract_macs hex)) capture_source
  | Raise _ => false
  end.

(** [int(port_2)] for the key of the entry. *)
Definition destination_port (entry : session_key * session) : result Z :=
  do ap2 <- unpack2 (Py.split ":" (snd (fst entry)));
  Py.int 10 (snd ap2).

Definition destination_port_below (max_port : Z)
  (entry : session_key * session) : bool :=
  match destination_port entry with
  | Ok p => (p <? max_port)%Z
  | Raise _ => false
  end.

(** The address of an endpoint [address:port]. *)
Definition endpoint_address (endpoint : string) : result string :=
  do ap <- unpack2 (Py.split ":" endpoint);
  Ok (fst ap).

Definition private_address (endpoint : string) : list string :=
  match endpoint_address endpoint with
  | Ok address =>
      match is_private (AStr address) with
      | Ok true => [address]
      | _ => []
      end
  | Raise _ => []
  end.

(** The peers one entry contributes: the private far end of a session
    sent by the capture source, then the private near end of a session
    sent to it. *)
Definition peers_of (capture_source : source)
  (entry : session_key * session) : list string :=
  (if from_capture_source capture_source entry
   then private_address (snd (fst entry)) else [])
  ++ (if to_capture_source capture_source entry
      then private_address (fst (fst entry)) else []).

(** An entry whose key unpacks and whose session has a first header. *)
Definition keyed (entry : session_key * session) : bool :=
  returns (endpoint_address (fst (fst entry)))
  && returns (endpoint_address (snd (fst entry)))
  && returns (first_header (snd entry)).

(** No counter exceeds the number of sessions counted. *)
Definition within (c : counters) : Prop :=
  (num_external c <= num_sessions c)%nat /\
  (num_tcp_sess c + num_udp_sess c + num_icmp_sess c <= num_sessions c)%nat /\
  (list_sum (num_source_sess c) <= num_sessions c)%nat /\
  (list_sum (num_destination_sess c) <= num_sessions c)%nat.

(** The index [hist[p]] stands for in a histogram of [max_port] bins:
    a negative [p] counts from the end. *)
Definition bin_index (max_port p : Z) : Z :=
  if (p <? 0)%Z then (p + Z.of_nat (Z.to_nat max_port))%Z else p.

(** The session is binned at [i] in a histogram of [max_port] bins when
    its port reads [p]. *)
Definition binned_at (max_port : Z) (i : nat) (port : result Z) : bool :=
  match port with
  | Ok p => ((p <? max_port) && (bin_index max_port p =? Z.of_nat i))%Z
  | Raise _ => false
  end.

(** The mapping with every session cut down to its first packet. *)
Definition first_packets (sessions : session_dict) : session_dict :=
  map (fun entry => (fst entry, firstn 1 (snd entry))) sessions.

(** * The two aggregating functions over a store of mutable objects

    [get_source] and [extract_features] once more, this time with every
    Python object they create or are handed living in a store: the
    session mapping is an object the caller owns, the [defaultdict]s and
    the histograms are objects the call allocates and updates in place.
    A call takes the store it finds and leaves the store it made, so
    that one call can be run after another. *)

Module Imp.

Inductive object : Type :=
| Mapping (d : session_dict)
| Counts (d : dict string nat)
| Ints (l : list nat).

Definition store : Type := list object.
Definition ref : Type := nat.

(** How a call can end badly: a Python exception of the functions
    above, the [RuntimeError] of a dictionary that changes size while it
    is iterated, or a reference that does not hold the kind of object
    the statement needs. *)
Inductive failure : Type :=
| Python (e : exn)
| ChangedSize
| WrongKind.

Inductive outcome (A : Type) : Type :=
| Done (a : A)
| Fail (f : failure).

Arguments Done {A} a.
Arguments Fail {A} f.

Definition run (A : Type) : Type := store -> outcome A * store.

Definition ret {A : Type} (a : A) : run A := fun st => (Done a, st).

Definition fail {A : Type} (f : failure) : run A := fun st => (Fail f, st).

Definition bind {A B : Type} (m : run A) (k : A -> run B) : run B :=
  fun st =>
    match m st with
    | (Done a, st') => k a st'
    | (Fail f, st') => (Fail f, st')
    end.

Notation "'exec' x <- m ; k" := (bind m (fun x => k))
  (at level 10, x name, m at level 100, k at level 200).

Definition of_result {A : Type} (r : result A) : outcome A :=
  match r with
  | Ok a => Done a
  | Raise e => Fail (Python e)
  end.

(** A computation on values, which touches no object. *)
Definition lift {A : Type} (r : result A) : run A :=
  fun st => (of_result r, st).

(** A new object, at the end of the store. *)
Definition alloc (o : object) : run ref :=
  fun st => (Done (List.length st), st ++ [o]).

Definition fetch (r : ref) : run object :=
  fun st =>
    match nth_error st r with
    | Some o => (Done o, st)
    | None => (Fail WrongKind, st)
    end.

Fixpoint replace (r : nat) (o : object) (st : store) : store :=
  match st, r with
  | [], _ => []
  | _ :: st', O => o :: st'
  | x :: st', S r' => x :: replace r' o st'
  end.

Definition save (r : ref) (o : object) : run unit :=
  fun st => (Done tt, replace r o st).

Definition mapping_of (r : ref) : run session_dict :=
  exec o <- fetch r;
  match o with
  | Mapping d => ret d
  | _ => fail WrongKind
  end.

Definition counts_of (r : ref) : run (dict string nat) :=
  exec o <- fetch r;
  match o with
  | Counts d => ret d
  | _ => fail WrongKind
  end.

Definition ints_of (r : ref) : run (list nat) :=
  exec o <- fetch r;
  match o with
  | Ints l => ret l
  | _ => fail WrongKind
  end.

(** [d[k] += 1] on the [defaultdict] at [r]. *)
Definition bump (r : ref) (k : string) : run unit :=
  exec d <- counts_of r;
  save r (Counts (incr d k)).

(** Reading [d[k]] on a [defaultdict] stores the default for a key that
    is missing. *)
Definition touch (d : dict string nat) (k : string) : dict string nat :=
  if existsb (String.eqb k) (keys d) then d else d ++ [(k, 0%nat)].

Definition read_default (r : ref) (k : string) : run nat :=
  exec d <- counts_of r;
  exec _ <- save r (Counts (touch d k));
  ret (count_of d k).

(** [len(sessions)] *)
Definition len (r : ref) : run nat :=
  exec d <- mapping_of r;
  ret (List.length d).

(** The entry a dictionary iterator yields at its [i]-th step: the
    iterator was created when the dictionary had [size] entries and
    refuses to go on if that number has changed. *)
Definition entry_at (r : ref) (size i : nat) : run (session_key * session) :=
  exec d <- mapping_of r;
  if (List.length d =? size)%nat then
    match nth_error d i with
    | Some entry => ret entry
    | None => fail ChangedSize
    end
  else fail ChangedSize.

(** [todo] turns of a loop, the next one being turn [i]; [st] holds the
    local variables the turns rebind. *)
Fixpoint for_range {V : Type} (todo i : nat) (turn : nat -> V -> run V)
  (st : V) : run V :=
  match todo with
  | O => ret st
  | S todo' => exec st' <- turn i st; for_range todo' (S i) turn st'
  end.

(** *** get_source *)

(** One turn of [for key in sessions]. *)
Definition get_source_turn
  (sessions all_ips all_macs incoming_ips incoming_macs outgoing_ips : ref)
  (size i : nat) (_ : unit) : run unit :=
  exec entry <- entry_at sessions size i;
  let key := fst entry in
  let incoming_address := before_colon (snd key) in
  let outgoing_address := before_colon (fst key) in
  exec d <- mapping_of sessions;
  exec sess <- lift (dict_get d key);
  exec pkt <- lift (Py.item sess 0);
  exec first_packet <- lift (packet_item1 pkt);
  let '(source_mac, destination_mac) := extract_macs first_packet in
  exec both <- lift (and_then (is_private (AStr incoming_address))
                              (is_private (AStr outgoing_address)));
  if both then
    exec _ <- bump all_ips incoming_address;
    exec _ <- bump all_ips outgoing_address;
    exec _ <- bump all_macs source_mac;
    exec _ <- bump all_macs destination_mac;
    exec _ <- bump incoming_ips incoming_address;
    exec _ <- bump incoming_macs source_mac;
    exec _ <- bump outgoing_ips outgoing_address;
    bump outgoing_ips destination_mac
  else ret tt.

Definition get_source (sessions : ref) : run source :=
  exec all_ips <- alloc (Counts []);
  exec all_macs <- alloc (Counts []);
  exec incoming_ips <- alloc (Counts []);
  exec incoming_macs <- alloc (Counts []);
  exec outgoing_ips <- alloc (Counts []);
  exec outgoing_macs <- alloc (Counts []);
  exec size <- len sessions;
  exec _ <- for_range size 0
              (get_source_turn sessions all_ips all_macs incoming_ips
                 incoming_macs outgoing_ips size) tt;
  exec n <- len sessions;
  if (n =? 0)%nat then ret NoneZeroZero
  else
    exec macs <- counts_of all_macs;
    let sorted_sources := sorted_desc (count_of macs) (keys macs) in
    let capture_source :=
      match sorted_sources with
      | first :: _ => first
      | [] => "00:00:00:00:00:00"
      end in
    exec num_incoming <- read_default incoming_macs capture_source;
    exec num_outgoing <- read_default outgoing_macs capture_source;
    ret (Mac capture_source).

(** *** extract_features *)

(** The integer variables of [extract_features]. *)
Record scalars : Type := mkScalars {
  sessions_seen : nat;
  external_seen : nat;
  tcp_seen : nat;
  udp_seen : nat;
  icmp_seen : nat
}.

(** [if int(port) < max_port: hist[int(port)] += 1] on the list at
    [hist]. *)
Definition bump_port (hist : ref) (port : string) (max_port : Z) : run unit :=
  exec p <- lift (Py.int 10 port);
  if (p <? max_port)%Z then
    exec l <- ints_of hist;
    exec l' <- lift (list_incr l p);
    save hist (Ints l')
  else ret tt.

(** [if is_private(address): other_ips[address] += 1] *)
Definition note_peer (other_ips : ref) (address : string) : run unit :=
  exec private <- lift (is_private (AStr address));
  if private then bump other_ips address else ret tt.

(** One turn of [for key, session in session_dict.items()]. *)
Definition extract_features_turn
  (session_dict0 : ref) (capture_source : source) (max_port : Z)
  (num_source_sess num_destination_sess other_ips : ref)
  (size i : nat) (n : scalars) : run scalars :=
  exec entry <- entry_at session_dict0 size i;
  let '(key, sess) := entry in
  exec ap1 <- lift (unpack2 (Py.split ":" (fst key)));
  let '(address_1, port_1) := ap1 in
  exec ap2 <- lift (unpack2 (Py.split ":" (snd key)));
  let '(address_2, port_2) := ap2 in
  exec pkt <- lift (Py.item sess 0);
  exec first_packet <- lift (packet_item1 pkt);
  let '(source_mac, destination_mac) := extract_macs first_packet in
  exec n1 <-
    (if mac_is source_mac capture_source then
       exec _ <- note_peer other_ips address_2;
       let num_sessions1 := S (sessions_seen n) in
       let num_external1 :=
         add_bool (external_seen n) (is_external address_1 address_2) in
       exec tcp <- lift (is_protocol sess "06");
       exec udp <- lift (is_protocol sess "11");
       exec icmp <- lift (is_protocol sess "01");
       exec _ <- bump_port num_source_sess port_1 max_port;
       exec _ <- bump_port num_destination_sess port_2 max_port;
       ret (mkScalars num_sessions1 num_external1
              (add_bool (tcp_seen n) tcp) (add_bool (udp_seen n) udp)
              (add_bool (icmp_seen n) icmp))
     else ret n);
  if mac_is destination_mac capture_source then
    exec _ <- note_peer other_ips address_1;
    ret n1
  else ret n1.

Definition extract_features (session_dict0 : ref)
  (capture_source : option source) (max_port : Z)
  : run (list Q * source * list string) :=
  exec capture_source1 <-
    match capture_source with
    | None => get_source session_dict0
    | Some given => ret given
    end;
  exec num_source_sess <- alloc (Ints (zeros max_port));
  exec num_destination_sess <- alloc (Ints (zeros max_port));
  exec other_ips <- alloc (Counts []);
  exec size <- len session_dict0;
  exec n <- for_range size 0
              (extract_features_turn session_dict0 capture_source1 max_port
                 num_source_sess num_destination_sess other_ips size)
              (mkScalars 0 0 0 0 0);
  exec sources <- ints_of num_source_sess;
  exec destinations <- ints_of num_destination_sess;
  exec peers <- counts_of other_ips;
  ret (normalise
         (mkCounters sources destinations (sessions_seen n)
            (external_seen n) (tcp_seen n) (udp_seen n) (icmp_seen n) peers),
       capture_source1, keys peers).

(** The local objects of the two functions, as the counters of the
    value-level functions describe them. *)
Definition tally_objects (t : tallies) : store :=
  [ Counts (all_ips t); Counts (all_macs t); Counts (incoming_ips t);
    Counts (incoming_macs t); Counts (outgoing_ips t);
    Counts (outgoing_macs t) ].

Definition counter_objects (c : counters) : store :=
  [ Ints (num_source_sess c); Ints (num_destination_sess c);
    Counts (other_ips c) ].

Definition scalars_of (c : counters) : scalars :=
  mkScalars (num_sessions c) (num_external c) (num_tcp_sess c)
    (num_udp_sess c) (num_icmp_sess c).

End Imp.

(** * Theorems *)

(** ** Small facts about the Python layer *)

Lemma bind_ok {A B : Type} (r : result A) (k : A -> result B) (b : B) :
  bind r k = Ok b -> exists a, r = Ok a /\ k a = Ok b.
Proof.
  destruct r as [a | e]; simpl; intro H.
  - exists a. split; [reflexivity | exact H].
  - discriminate H.
Qed.

Lemma forall_below (P : nat -> bool) (n : nat) :
  forallb P (seq 0 n) = true -> forall k, (k < n)%nat -> P k = true.
Proof.
  intros H k Hk. rewrite forallb_forall in H. apply H.
  apply in_seq. lia.
Qed.

Lemma string_length_app (s t : string) :
  String.length (s ++ t) = (String.length s + String.length t)%nat.
Proof.
  induction s as [| c s IH]; simpl; [reflexivity | now rewrite IH].
Qed.

Lemma split_app_sep (sep : ascii) (w rest : string) :
  no_char sep w = true ->
  Py.split sep (w ++ String sep rest) = w :: Py.split sep rest.
Proof.
  induction w as [| c w IH]; simpl; intro H.
  - now rewrite Ascii.eqb_refl.
  - apply andb_prop in H. destruct H as [Hc Hw].
    apply negb_true_iff in Hc. rewrite Hc, (IH Hw). reflexivity.
Qed.

Lemma split_no_sep (sep : ascii) (w : string) :
  no_char sep w = true -> Py.split sep w = [w].
Proof.
  induction w as [| c w IH]; simpl; intro H.
  - reflexivity.
  - apply andb_prop in H. destruct H as [Hc Hw].
    apply negb_true_iff in Hc. rewrite Hc, (IH Hw). reflexivity.
Qed.

(** ** is_external *)

Lemma is_external_true_iff (address_1 address_2 : string) :
  is_external address_1 address_2 = true <->
  Py.slice 0 3 address_1 = Py.slice 0 3 address_2.
Proof.
  unfold is_external.
  destruct (String.eqb_spec (Py.slice 0 3 address_1) (Py.slice 0 3 address_2));
    split; intro H; congruence.
Qed.

(** C1. The code answers [True] for two addresses with the same three
    leading characters and [False] for two addresses whose three leading
    characters differ: the opposite of what the name promises. *)
Theorem is_external_same_prefix_is_true :
  is_external "192.168.1.5" "192.168.1.10" = true /\
  is_external "10.0.0.1" "192.168.1.10" = false /\
  (forall a b : string,
      is_external a b = false <-> Py.slice 0 3 a <> Py.slice 0 3 b).
Proof.
  split; [reflexivity | split; [reflexivity |]].
  intros a b. rewrite <- is_external_true_iff.
  destruct (is_external a b); split; congruence.
Qed.

(** C10. [is_external] is symmetric in its two arguments. *)
Theorem is_external_sym (address_1 address_2 : string) :
  is_external address_1 address_2 = is_external address_2 address_1.
Proof.
  unfold is_external. now rewrite String.eqb_sym.
Qed.

(** ** is_private *)

Lemma octet_no_dot (n : nat) :
  (n < 256)%nat -> no_char "." (octet_string n) = true.
Proof.
  apply (forall_below (fun k => no_char "." (octet_string k))).
  vm_compute. reflexivity.
Qed.

Lemma octet_length_pos (n : nat) : (1 <= String.length (octet_string n))%nat.
Proof.
  unfold octet_string.
  destruct (n <? 10)%nat; [simpl; lia |].
  destruct (n <? 100)%nat; simpl; lia.
Qed.

Lemma split_dotted_quad (a b c d : nat) :
  (a < 256)%nat -> (b < 256)%nat -> (c < 256)%nat -> (d < 256)%nat ->
  Py.split "." (dotted_quad a b c d)
  = [octet_string a; octet_string b; octet_string c; octet_string d].
Proof.
  intros Ha Hb Hc Hd. unfold dotted_quad.
  cbn [append].
  rewrite !split_app_sep by now apply octet_no_dot.
  rewrite split_no_sep by now apply octet_no_dot.
  reflexivity.
Qed.

Lemma dotted_quad_long (a b c d : nat) :
  (4 <? String.length (dotted_quad a b c d))%nat = true.
Proof.
  apply Nat.ltb_lt. unfold dotted_quad.
  rewrite !string_length_app. simpl.
  pose proof (octet_length_pos a). pose proof (octet_length_pos b).
  pose proof (octet_length_pos c). pose proof (octet_length_pos d).
  lia.
Qed.

(** [classify] reads the first two pieces only. *)
Lemma classify_two (p0 p1 : string) (rest : list string) :
  classify (p0 :: p1 :: rest) = classify [p0; p1].
Proof. reflexivity. Qed.

Lemma agrees_eq (r : result bool) (b : bool) : agrees r b = true -> r = Ok b.
Proof.
  destruct r as [b' | e]; simpl; intro H; [| discriminate].
  apply Bool.eqb_prop in H. now subst.
Qed.

Lemma classify_octets (a b : nat) :
  (a < 256)%nat -> (b < 256)%nat ->
  classify [octet_string a; octet_string b] = Ok (rfc1918 a b).
Proof.
  intros Ha Hb. apply agrees_eq.
  revert b Hb.
  apply (forall_below
           (fun b => agrees (classify [octet_string a; octet_string b])
                       (rfc1918 a b))).
  revert a Ha.
  apply (forall_below
           (fun a => forallb
              (fun b => agrees (classify [octet_string a; octet_string b])
                          (rfc1918 a b)) (seq 0 256))).
  vm_compute. reflexivity.
Qed.

Lemma is_private_dotted_quad (a b c d : nat) :
  (a < 256)%nat -> (b < 256)%nat -> (c < 256)%nat -> (d < 256)%nat ->
  is_private (AStr (dotted_quad a b c d)) = Ok (rfc1918 a b).
Proof.
  intros Ha Hb Hc Hd.
  unfold is_private, bind_pairs. simpl address_len.
  rewrite dotted_quad_long. simpl bind.
  rewrite split_dotted_quad by assumption.
  rewrite classify_two. now apply classify_octets.
Qed.

(** C6. On every canonical dotted quad [a.b.c.d] (octets 0..255 in
    decimal) [is_private] returns, and its answer is membership in
    10.0.0.0/8, 172.16.0.0/12 or 192.168.0.0/16. *)
Theorem is_private_rfc1918 (a b c d : nat) :
  (a < 256)%nat -> (b < 256)%nat -> (c < 256)%nat -> (d < 256)%nat ->
  is_private (AStr (dotted_quad a b c d)) = Ok (rfc1918 a b).
Proof. exact (is_private_dotted_quad a b c d). Qed.

Lemma is_private_rfc1918_witness :
  is_private (AStr "172.16.0.1") = Ok true /\
  is_private (AStr "172.15.0.1") = Ok false /\
  is_private (AStr "8.8.8.8") = Ok false /\
  is_private (AStr "10.200.0.7") = Ok true /\
  is_private (AStr "192.168.1.5") = Ok true.
Proof.
  refine (conj _ (conj _ (conj _ (conj _ _)))).
  - apply (is_private_rfc1918 172 16 0 1); lia.
  - apply (is_private_rfc1918 172 15 0 1); lia.
  - apply (is_private_rfc1918 8 8 8 8); lia.
  - apply (is_private_rfc1918 10 200 0 7); lia.
  - apply (is_private_rfc1918 192 168 1 5); lia.
Defined.

(** C8. A string of one to three characters leaves [pairs] unassigned and
    the first test raises; a string of four characters or more binds
    [pairs] and the answer is that of the three tests on it. *)
Theorem is_private_short_string (s : string) :
  ((1 <= String.length s <= 3)%nat ->
   is_private (AStr s) = Raise UnboundLocalError) /\
  ((4 <= String.length s)%nat ->
   exists pairs : list string,
     bind_pairs (AStr s) = Ok (Some pairs) /\
     is_private (AStr s) = classify pairs).
Proof.
  unfold is_private, bind_pairs. simpl address_len. split; intro H.
  - destruct (Nat.ltb_spec 4 (String.length s)); [lia |].
    destruct (Nat.eqb_spec (String.length s) 4); [lia |].
    reflexivity.
  - destruct (Nat.ltb_spec 4 (String.length s)).
    + eexists. split; reflexivity.
    + destruct (Nat.eqb_spec (String.length s) 4); [| lia].
      eexists. split; reflexivity.
Qed.

Lemma is_private_short_string_witness :
  is_private (AStr "172") = Raise UnboundLocalError /\
  exists pairs : list string,
    bind_pairs (AStr "10.0.0.1") = Ok (Some pairs) /\
    is_private (AStr "10.0.0.1") = classify pairs.
Proof.
  split.
  - apply (proj1 (is_private_short_string "172")). simpl. lia.
  - apply (proj2 (is_private_short_string "10.0.0.1")). simpl. lia.
Defined.

(** ** packet_size *)

Lemma every_ascii (P : ascii -> bool) :
  forallb (fun n => P (ascii_of_nat n)) (seq 0 256) = true ->
  forall c, P c = true.
Proof.
  intros H c. rewrite <- (ascii_nat_embedding c).
  apply (forall_below (fun n => P (ascii_of_nat n)) 256 H).
  apply nat_ascii_bounded.
Qed.

Lemma hex_digit_facts (c : ascii) (d : Z) :
  hex_digit c = Some d ->
  Py.digit_in 16 c = Some d /\ Py.is_space c = false /\
  Ascii.eqb c "+" = false /\ Ascii.eqb c "-" = false /\
  Ascii.eqb c "x" = false /\ Ascii.eqb c "X" = false.
Proof.
  intro H.
  assert (Hc : hex_digit_check c = true).
  { apply every_ascii. vm_compute. reflexivity. }
  unfold hex_digit_check in Hc. rewrite H in Hc.
  repeat (apply andb_prop in Hc; destruct Hc as [Hc ?]).
  repeat match goal with
         | [ Hn : negb _ = true |- _ ] => apply negb_true_iff in Hn
         end.
  destruct (Py.digit_in 16 c) as [d' |]; [| discriminate Hc].
  apply Z.eqb_eq in Hc. subst d'. tauto.
Qed.

Lemma more_digits_hex (s : string) (acc v : Z) :
  hex_value_from acc s = Some v -> Py.more_digits 16 acc s = Some (v, "").
Proof.
  revert acc. induction s as [| c s IH]; simpl; intros acc H.
  - now injection H as <-.
  - destruct (hex_digit c) as [d |] eqn:Hc; [| discriminate H].
    destruct (hex_digit_facts c d Hc) as [-> _]. now apply IH.
Qed.

(** On a non-empty string of hex digits, [int(s, 16)] is its positional
    value. *)
Lemma int_hex_value (s : string) (v : Z) :
  hex_value s = Some v -> Py.int 16 s = Ok v.
Proof.
  destruct s as [| c r]; simpl; [discriminate |].
  destruct (hex_digit c) as [d |] eqn:Hc; [| discriminate].
  destruct (hex_digit_facts c d Hc) as (Hd & Hsp & Hplus & Hminus & _).
  intro Hv. unfold Py.int, Py.int_opt. simpl Py.lstrip. rewrite Hsp.
  unfold Py.strip_sign. rewrite Hplus, Hminus.
  assert (Hpre : Py.strip_prefix 16 (String c r) = String c r).
  { destruct r as [| x r']; [reflexivity |]. simpl in Hv.
    destruct (hex_digit x) as [dx |] eqn:Hx; [| discriminate Hv].
    destruct (hex_digit_facts x dx Hx) as (_ & _ & _ & _ & Hx1 & Hx2).
    unfold Py.strip_prefix. rewrite Hx1, Hx2.
    now rewrite andb_false_r. }
  rewrite Hpre, Hd.
  rewrite (more_digits_hex r d v Hv). reflexivity.
Qed.

Lemma substring_past_end (n m : nat) (s : string) :
  (String.length s <= n)%nat -> substring n m s = "".
Proof.
  revert n. induction s as [| c s IH]; intros n H.
  - destruct n, m; reflexivity.
  - destruct n as [| n]; simpl in H; [lia |].
    simpl. apply IH. lia.
Qed.

(** C7. For a [(timestamp, hex)] pair [packet_size] always returns: the
    value of [int(field, 16)] when Python accepts the field
    [hex[32:36]], 0 when it does not.  In particular a field made of hex
    digits gives its base-16 value, and a header too short to hold the
    field gives 0. *)
Theorem packet_size_pair (ts : timestamp) (hex : string) :
  (exists n : Z, packet_size (Pair ts hex) = Ok n) /\
  (forall v : Z, Py.int 16 (length_field hex) = Ok v ->
     packet_size (Pair ts hex) = Ok v) /\
  (Py.int 16 (length_field hex) = Raise ValueError ->
     packet_size (Pair ts hex) = Ok 0%Z) /\
  (forall v : Z, hex_value (length_field hex) = Some v ->
     packet_size (Pair ts hex) = Ok v) /\
  ((String.length hex <= 32)%nat -> packet_size (Pair ts hex) = Ok 0%Z).
Proof.
  unfold packet_size. simpl. fold (length_field hex).
  refine (conj _ (conj _ (conj _ (conj _ _)))).
  - destruct (Py.int 16 (length_field hex)); eexists; reflexivity.
  - intros v H. now rewrite H.
  - intro H. now rewrite H.
  - intros v H. now rewrite (int_hex_value _ _ H).
  - intro H. unfold length_field, Py.slice.
    now rewrite substring_past_end.
Qed.

Lemma packet_size_pair_witness :
  packet_size (Pair 0%Z sample_header) = Ok 40%Z /\
  packet_size (Pair 0%Z "bbbbbbbbbbbbaaaaaaaaaaaa08004500zz") = Ok 0%Z /\
  packet_size (Pair 0%Z "bbbbbbbbbbbbaaaaaaaaaaaa") = Ok 0%Z /\
  packet_size (Pair 0%Z "bbbbbbbbbbbbaaaaaaaaaaaa08004500 1f ") = Ok 31%Z.
Proof.
  refine (conj _ (conj _ (conj _ _))).
  - apply (proj1 (proj2 (proj2 (proj2 (packet_size_pair 0%Z sample_header))))).
    reflexivity.
  - apply (proj1 (proj2 (proj2
             (packet_size_pair 0%Z "bbbbbbbbbbbbaaaaaaaaaaaa08004500zz")))).
    reflexivity.
  - apply (proj2 (proj2 (proj2 (proj2
             (packet_size_pair 0%Z "bbbbbbbbbbbbaaaaaaaaaaaa"))))).
    simpl. lia.
  - apply (proj1 (proj2
             (packet_size_pair 0%Z "bbbbbbbbbbbbaaaaaaaaaaaa08004500 1f "))).
    reflexivity.
Defined.

(** C7, as first stated, fails on bare strings: [packet[1]] is then a
    single character, so a one-character string raises, and a complete
    header whose length field reads 0028 is given size 0. *)
Lemma packet_size_bare_string :
  packet_size (Bare "a") = Raise IndexError /\
  hex_value (length_field sample_header) = Some 40%Z /\
  packet_size (Bare sample_header) = Ok 0%Z.
Proof. repeat split. Qed.

(** ** extract_features on particular inputs *)

Lemma normalise_initial (max_port : Z) :
  normalise (initial_counters max_port)
  = repeat 0%Q (Z.to_nat (2 * Z.max 0 max_port + 4)).
Proof.
  replace (Z.to_nat (2 * Z.max 0 max_port + 4))
    with ((Z.to_nat max_port + Z.to_nat max_port) + 4)%nat by lia.
  unfold normalise, initial_counters, zeros.
  cbn [num_source_sess num_destination_sess num_sessions num_external
       num_tcp_sess num_udp_sess num_icmp_sess Nat.eqb].
  rewrite <- repeat_app, map_repeat, (repeat_app _ _ 4). reflexivity.
Qed.

(** C3. On the empty mapping, with no capture source given,
    [extract_features] returns a vector of [2*max(0, max_port) + 4]
    zeros, the tuple [(None, 0, 0)] of [get_source]'s early return as
    capture source, and no peers. *)
Theorem extract_features_empty (max_port : Z) :
  extract_features [] None max_port
  = Ok (repeat 0%Q (Z.to_nat (2 * Z.max 0 max_port + 4)), NoneZeroZero, []).
Proof.
  unfold extract_features, aggregate. simpl.
  now rewrite normalise_initial.
Qed.

(** C3, as first stated, fails: the capture source returned for the
    empty mapping is not the all-zero MAC, and a negative [max_port]
    gives 4 entries where [2*max_port + 4] would be 2. *)
Lemma extract_features_empty_not_sentinel :
  extract_features [] None 1024
  = Ok (repeat 0%Q 2052, NoneZeroZero, []) /\
  NoneZeroZero <> Mac "00:00:00:00:00:00" /\
  extract_features [] None (-1) = Ok (repeat 0%Q 4, NoneZeroZero, []) /\
  (Z.of_nat 4 <> 2 * (-1) + 4)%Z.
Proof.
  refine (conj _ (conj _ (conj _ _)));
    [vm_compute; reflexivity | discriminate | reflexivity | lia].
Qed.

(** The all-zero MAC is what [get_source] gives for a mapping that has
    sessions but none between two private addresses. *)
Lemma get_source_sentinel_example :
  get_source
    [(("8.8.8.8:53", "192.168.1.5:4000"),
      [Pair 0%Z (header "bbbbbbbbbbbb" "aaaaaaaaaaaa" "11")])]
  = Ok (Mac "00:00:00:00:00:00").
Proof. reflexivity. Qed.

(** C2. The two-session scenario, evaluated: the capture source is
    aa:aa:aa:aa:aa:aa, both sessions count, TCP and UDP fractions are
    1/2, ICMP is 0, source bin 80 is 1/2, port 4000 has no bin in the
    1024-wide destination histogram; the external fraction is 1, not 0,
    because both sessions have equal three-character prefixes. *)
Theorem scenario_features :
  get_source scenario = Ok (Mac "aa:aa:aa:aa:aa:aa") /\
  (exists c : counters,
      aggregate scenario (Mac "aa:aa:aa:aa:aa:aa") 1024 = Ok c /\
      num_sessions c = 2%nat /\
      List.length (num_destination_sess c) = 1024%nat /\
      list_sum (num_destination_sess c) = 1%nat /\
      num_external c = 2%nat) /\
  (exists v : list Q,
      extract_features scenario None 1024
      = Ok (v, Mac "aa:aa:aa:aa:aa:aa", ["192.168.1.10"; "192.168.1.11"]) /\
      List.length v = 2052%nat /\
      nth 80 v 0%Q = (1 # 2)%Q /\
      nth 2048 v 0%Q = 1%Q /\
      nth 2049 v 0%Q = (1 # 2)%Q /\
      nth 2050 v 0%Q = (1 # 2)%Q /\
      nth 2051 v 0%Q = 0%Q).
Proof.
  split; [reflexivity | split].
  - eexists. split; [vm_compute; reflexivity |].
    repeat split.
  - eexists. split; [vm_compute; reflexivity |].
    repeat split.
Qed.

(** ** Counting dictionaries *)

Section Tally.

Implicit Types (d : dict string nat) (k : string) (l : list string).

Lemma count_of_incr d k k' :
  count_of (incr d k) k'
  = if String.eqb k k' then S (count_of d k') else count_of d k'.
Proof.
  induction d as [| [k0 n] d IH]; simpl.
  - destruct (String.eqb k k'); reflexivity.
  - destruct (String.eqb_spec k0 k) as [-> | Hne]; simpl.
    + destruct (String.eqb k k'); reflexivity.
    + destruct (String.eqb_spec k0 k') as [-> | Hne'].
      * destruct (String.eqb_spec k k'); [congruence | reflexivity].
      * exact IH.
Qed.

Lemma keys_incr_old d k : In k (keys d) -> keys (incr d k) = keys d.
Proof.
  induction d as [| [k0 n] d IH]; simpl; intro H; [contradiction |].
  destruct (String.eqb_spec k0 k) as [-> | Hne]; simpl; [reflexivity |].
  destruct H as [H | H]; [congruence |].
  f_equal. exact (IH H).
Qed.

Lemma keys_incr_new d k : ~ In k (keys d) -> keys (incr d k) = keys d ++ [k].
Proof.
  induction d as [| [k0 n] d IH]; simpl; intro H; [reflexivity |].
  destruct (String.eqb_spec k0 k) as [-> | Hne]; simpl.
  - exfalso. apply H. now left.
  - f_equal. apply IH. intro Hin. apply H. now right.
Qed.

Lemma keys_incr_cases d k :
  (In k (keys d) /\ keys (incr d k) = keys d) \/
  (~ In k (keys d) /\ keys (incr d k) = keys d ++ [k]).
Proof.
  destruct (in_dec string_dec k (keys d)) as [H | H].
  - left. split; [exact H | now apply keys_incr_old].
  - right. split; [exact H | now apply keys_incr_new].
Qed.

Lemma count_of_tally l d k :
  count_of (fold_left incr l d) k
  = (count_of d k + count_occ string_dec l k)%nat.
Proof.
  revert d. induction l as [| x l IH]; intro d; simpl.
  - lia.
  - rewrite IH, count_of_incr.
    destruct (string_dec x k) as [-> | Hne].
    + rewrite String.eqb_refl. lia.
    + destruct (String.eqb_spec x k); [congruence | lia].
Qed.

Lemma in_keys_tally l d k :
  In k (keys (fold_left incr l d)) <-> In k (keys d) \/ In k l.
Proof.
  revert d. induction l as [| x l IH]; intro d; simpl.
  - tauto.
  - rewrite IH.
    destruct (keys_incr_cases d x) as [[Hin ->] | [Hout ->]].
    + split; [intros [H | H]; auto |].
      intros [H | [<- | H]]; auto.
    + rewrite in_app_iff. simpl. tauto.
Qed.

(** The keys of a tally are the first sightings, in order: whatever
    stands before [m] among the keys was seen before [m] was. *)
Lemma tally_first_seen l ks1 m ks2 :
  keys (fold_left incr l []) = ks1 ++ m :: ks2 ->
  exists before after,
    l = before ++ m :: after /\ forall x, In x before -> In x ks1.
Proof.
  revert ks1 m ks2. induction l as [| x l IH] using rev_ind;
    intros ks1 m ks2 H.
  - destruct ks1; discriminate H.
  - rewrite fold_left_app in H. simpl in H.
    destruct (keys_incr_cases (fold_left incr l []) x)
      as [[Hin Hk] | [Hout Hk]]; rewrite Hk in H.
    + destruct (IH _ _ _ H) as (before & after & -> & Hb).
      exists before, (after ++ [x]). split; [| exact Hb].
      now rewrite <- app_assoc.
    + destruct ks2 as [| y ks2 _] using rev_ind.
      * apply app_inj_tail in H. destruct H as [Hks <-].
        exists l, []. split; [reflexivity |].
        intros y Hy. rewrite <- Hks. apply in_keys_tally. now right.
      * change (ks1 ++ m :: ks2 ++ [y]) with (ks1 ++ (m :: ks2) ++ [y]) in H.
        rewrite app_assoc in H.
        apply app_inj_tail in H. destruct H as [Hks _].
        destruct (IH _ _ _ Hks) as (before & after & -> & Hb).
        exists before, (after ++ [x]). split; [| exact Hb].
        now rewrite <- app_assoc.
Qed.

End Tally.

(** ** The stable descending sort *)

Section Sorted.

Variable count : string -> nat.

Lemma sorted_desc_nil (ks : list string) : sorted_desc count ks = [] -> ks = [].
Proof.
  destruct ks as [| k ks]; simpl; [reflexivity |].
  destruct (sorted_desc count ks) as [| h r]; simpl; [discriminate |].
  destruct (count k <? count h)%nat; discriminate.
Qed.

(** The head of the sorted list is the first key of largest count. *)
Lemma sorted_desc_head (ks : list string) (m : string) (rest : list string) :
  sorted_desc count ks = m :: rest ->
  exists ks1 ks2,
    ks = ks1 ++ m :: ks2 /\
    (forall x, In x ks1 -> (count x < count m)%nat) /\
    (forall x, In x ks2 -> (count x <= count m)%nat).
Proof.
  revert m rest. induction ks as [| k ks IH]; intros m rest H; simpl in H.
  - discriminate H.
  - destruct (sorted_desc count ks) as [| h r] eqn:Hs; simpl in H.
    + injection H as <- <-. apply sorted_desc_nil in Hs. subst ks.
      exists [], []. repeat split; intros x [].
    + destruct (IH h r eq_refl) as (a & b & -> & Ha & Hb).
      destruct (Nat.ltb_spec (count k) (count h)) as [Hlt | Hge].
      * injection H as <- <-.
        exists (k :: a), b. repeat split; [| exact Hb].
        intros x [<- | Hx]; [exact Hlt | now apply Ha].
      * injection H as <- <-.
        exists [], (a ++ h :: b). repeat split; [intros x [] |].
        intros x Hx. apply in_app_or in Hx.
        destruct Hx as [Hx | [<- | Hx]].
        -- specialize (Ha x Hx). lia.
        -- exact Hge.
        -- specialize (Hb x Hx). lia.
Qed.

End Sorted.

(** ** get_source *)

Lemma key_eqb_eq (k1 k2 : session_key) : key_eqb k1 k2 = true <-> k1 = k2.
Proof.
  destruct k1 as [a1 b1], k2 as [a2 b2]. unfold key_eqb. simpl.
  rewrite andb_true_iff, !String.eqb_eq. split.
  - intros [-> ->]. reflexivity.
  - intro H. injection H as -> ->. now split.
Qed.

(** With distinct keys, looking a key up gives the value stored with it. *)
Lemma dict_get_in {V : Type} (d : dict session_key V) (k : session_key) (v : V) :
  NoDup (keys d) -> In (k, v) d -> dict_get d k = Ok v.
Proof.
  induction d as [| [k0 v0] d IH]; simpl; intros Hnd Hin; [contradiction |].
  inversion Hnd as [| ? ? Hout Hnd']; subst.
  destruct (key_eqb k0 k) eqn:E.
  - apply key_eqb_eq in E. subst k0.
    destruct Hin as [Hin | Hin]; [now injection Hin as -> |].
    exfalso. apply Hout. change k with (fst (k, v)). now apply in_map.
  - destruct Hin as [Hin | Hin].
    + injection Hin as -> ->.
      assert (key_eqb k k = true) by now apply key_eqb_eq.
      congruence.
    + now apply IH.
Qed.

(** One turn of the loop on a readable entry adds its sightings to
    [all_macs]. *)
Lemma get_source_body_readable (sessions : session_dict) (t : tallies)
  (entry : session_key * session) :
  dict_get sessions (fst entry) = Ok (snd entry) ->
  readable entry = true ->
  exists t' : tallies,
    get_source_body sessions t (fst entry) = Ok t' /\
    all_macs t' = fold_left incr (sightings_of entry) (all_macs t).
Proof.
  intros Hget Hread. unfold readable in Hread.
  apply andb_prop in Hread. destruct Hread as [Hhdr Hpriv].
  unfold get_source_body. rewrite Hget. simpl bind.
  unfold sightings_of.
  unfold first_header in *.
  destruct (Py.item (snd entry) 0) as [pkt |]; simpl in *; [| discriminate].
  destruct (packet_item1 pkt) as [hex |]; simpl in *; [| discriminate].
  destruct (extract_macs hex) as [source_mac destination_mac].
  fold (both_private (fst entry)).
  destruct (both_private (fst entry)) as [[|] |]; simpl in *;
    try discriminate; eexists; split; reflexivity.
Qed.

Lemma get_source_loop (sessions : session_dict)
  (entries : list (session_key * session)) (t : tallies) :
  (forall entry, In entry entries ->
     dict_get sessions (fst entry) = Ok (snd entry) /\
     readable entry = true) ->
  exists t' : tallies,
    for_each (get_source_body sessions) (keys entries) t = Ok t' /\
    all_macs t' = fold_left incr (flat_map sightings_of entries) (all_macs t).
Proof.
  revert t. induction entries as [| entry entries IH]; intros t H; simpl.
  - exists t. split; reflexivity.
  - destruct (H entry (or_introl eq_refl)) as [Hget Hread].
    destruct (get_source_body_readable sessions t entry Hget Hread)
      as (t1 & -> & Hmacs).
    simpl bind.
    destruct (IH t1) as (t' & -> & Hmacs').
    { intros e He. apply H. now right. }
    exists t'. split; [reflexivity |].
    now rewrite Hmacs', Hmacs, fold_left_app.
Qed.

(** C4. On a mapping with distinct keys, whose entries can all be read,
    and with at least one session between two private addresses,
    [get_source] returns a MAC that was sighted, that no MAC out-counts,
    and that was first sighted before any other MAC of the same count. *)
Theorem get_source_most_seen (sessions : session_dict) :
  NoDup (keys sessions) ->
  forallb readable sessions = true ->
  (exists entry, In entry sessions /\ both_private (fst entry) = Ok true) ->
  exists m : string,
    get_source sessions = Ok (Mac m) /\
    In m (mac_sightings sessions) /\
    (forall k, (occurrences sessions k <= occurrences sessions m)%nat) /\
    exists before after : list string,
      mac_sightings sessions = before ++ m :: after /\
      forall k, In k before ->
        (occurrences sessions k < occurrences sessions m)%nat.
Proof.
  intros Hnd Hread [entry [Hentry Hpriv]].
  rewrite forallb_forall in Hread.
  destruct (get_source_loop sessions sessions no_tallies) as (t & Hloop & Hmacs).
  { intros [k v] He. split; [| now apply Hread].
    now apply dict_get_in. }
  simpl in Hmacs. fold (mac_sightings sessions) in Hmacs.
  set (count := count_of (all_macs t)).
  assert (Hcount : forall k, count k = occurrences sessions k).
  { intro k. unfold count, occurrences. rewrite Hmacs, count_of_tally.
    reflexivity. }
  (* some MAC was sighted *)
  assert (Hsome : exists x, In x (mac_sightings sessions)).
  { specialize (Hread entry Hentry). unfold readable in Hread.
    apply andb_prop in Hread. destruct Hread as [Hhdr _].
    destruct (first_header (snd entry)) as [hex |] eqn:Hh; [| discriminate].
    exists (fst (extract_macs hex)).
    unfold mac_sightings. apply in_flat_map. exists entry.
    split; [exact Hentry |].
    unfold sightings_of. rewrite Hpriv, Hh. now left. }
  destruct Hsome as [x Hx].
  destruct (sorted_desc count (keys (all_macs t))) as [| m rest] eqn:Hsort.
  { apply sorted_desc_nil in Hsort.
    assert (Hin : In x (keys (all_macs t))).
    { rewrite Hmacs. apply in_keys_tally. now right. }
    rewrite Hsort in Hin. contradiction. }
  destruct (sorted_desc_head count _ _ _ Hsort) as (ks1 & ks2 & Hks & Hlt & Hle).
  assert (Hm : In m (mac_sightings sessions)).
  { assert (Hin : In m (keys (all_macs t))).
    { rewrite Hks. apply in_or_app. right. now left. }
    rewrite Hmacs in Hin. apply in_keys_tally in Hin.
    destruct Hin as [[] | Hin]. exact Hin. }
  exists m. split; [| split; [exact Hm | split]].
  - unfold get_source. rewrite Hloop. simpl bind.
    destruct sessions as [| e0 sessions']; [contradiction |].
    simpl Nat.eqb. cbv iota.
    fold count. rewrite Hsort. reflexivity.
  - intro k. rewrite <- !Hcount.
    destruct (in_dec string_dec k (keys (all_macs t))) as [Hin | Hout].
    + rewrite Hks in Hin. apply in_app_or in Hin.
      destruct Hin as [Hin | [<- | Hin]].
      * specialize (Hlt k Hin). lia.
      * lia.
      * now apply Hle.
    + assert (Hzero : occurrences sessions k = 0%nat).
      { unfold occurrences. apply count_occ_not_In. intro Hin.
        apply Hout. rewrite Hmacs. apply in_keys_tally. now right. }
      rewrite Hcount, Hzero. lia.
  - rewrite Hmacs in Hks.
    destruct (tally_first_seen _ _ _ _ Hks) as (before & after & Heq & Hb).
    exists before, after. split; [exact Heq |].
    intros k Hk. rewrite <- !Hcount. apply Hlt. now apply Hb.
Qed.

Lemma get_source_most_seen_witness :
  exists m : string,
    get_source scenario = Ok (Mac m) /\
    In m (mac_sightings scenario) /\
    (forall k, (occurrences scenario k <= occurrences scenario m)%nat) /\
    exists before after : list string,
      mac_sightings scenario = before ++ m :: after /\
      forall k, In k before ->
        (occurrences scenario k < occurrences scenario m)%nat.
Proof.
  apply (get_source_most_seen scenario).
  - repeat constructor; simpl; intuition discriminate.
  - reflexivity.
  - eexists. split; [left; reflexivity | reflexivity].
Defined.

(** With equal counts the MAC sighted first wins. *)
Lemma get_source_tie_example :
  mac_sightings tied_sessions
  = ["bb:bb:bb:bb:bb:bb"; "aa:aa:aa:aa:aa:aa";
     "aa:aa:aa:aa:aa:aa"; "bb:bb:bb:bb:bb:bb"] /\
  get_source tied_sessions = Ok (Mac "bb:bb:bb:bb:bb:bb").
Proof. split; reflexivity. Qed.

(** ** The loop of extract_features *)

Lemma bump_nth_length (i : nat) (l : list nat) :
  List.length (bump_nth i l) = List.length l.
Proof.
  revert i. induction l as [| n l IH]; intros [| i]; simpl; auto.
Qed.

Lemma bump_nth_sum (i : nat) (l : list nat) :
  (i < List.length l)%nat -> list_sum (bump_nth i l) = S (list_sum l).
Proof.
  revert i. induction l as [| n l IH]; intros [| i]; simpl; intro H;
    try lia.
  rewrite IH by lia. lia.
Qed.

Lemma list_incr_ok (l l' : list nat) (i : Z) :
  list_incr l i = Ok l' ->
  list_sum l' = S (list_sum l) /\ List.length l' = List.length l.
Proof.
  unfold list_incr.
  set (j := if (i <? 0)%Z then (i + Z.of_nat (List.length l))%Z else i).
  destruct ((0 <=? j)%Z && (j <? Z.of_nat (List.length l))%Z) eqn:E;
    [| discriminate].
  intro H. injection H as <-.
  apply andb_prop in E. destruct E as [E1 E2].
  apply Z.leb_le in E1. apply Z.ltb_lt in E2.
  split; [apply bump_nth_sum; lia | apply bump_nth_length].
Qed.

(** A port below [max_port] and not negative always has its bin. *)
Lemma list_incr_in_range (l : list nat) (max_port i : Z) :
  List.length l = Z.to_nat max_port -> (0 <= i < max_port)%Z ->
  exists l', list_incr l i = Ok l'.
Proof.
  intros Hlen Hi. unfold list_incr.
  destruct (Z.ltb_spec i 0); [lia |].
  destruct (Z.leb_spec 0 i); [| lia].
  destruct (Z.ltb_spec i (Z.of_nat (List.length l))); [| lia].
  eexists. reflexivity.
Qed.

Lemma bump_port_ok (hist hist' : list nat) (port : string) (max_port : Z) :
  bump_port hist port max_port = Ok hist' ->
  exists p : Z,
    Py.int 10 port = Ok p /\
    list_sum hist' = (list_sum hist + b2n (p <? max_port)%Z)%nat /\
    List.length hist' = List.length hist.
Proof.
  unfold bump_port. intro H. apply bind_ok in H.
  destruct H as (p & Hp & H). exists p. split; [exact Hp |].
  destruct (p <? max_port)%Z; simpl.
  - apply list_incr_ok in H. destruct H. split; lia.
  - injection H as <-. split; [lia | reflexivity].
Qed.

Lemma count_incoming_ok (c c' : counters) (address_1 : string) :
  count_incoming c address_1 = Ok c' ->
  num_source_sess c' = num_source_sess c /\
  num_destination_sess c' = num_destination_sess c /\
  num_sessions c' = num_sessions c.
Proof.
  unfold count_incoming. intro H. apply bind_ok in H.
  destruct H as ([|] & _ & H); injection H as <-; repeat split.
Qed.

Lemma count_outgoing_ok (max_port : Z) (c c' : counters) (sess : session)
  (address_1 port_1 address_2 port_2 : string) :
  count_outgoing max_port c sess address_1 port_1 address_2 port_2 = Ok c' ->
  exists p : Z,
    Py.int 10 port_1 = Ok p /\
    list_sum (num_source_sess c')
    = (list_sum (num_source_sess c) + b2n (p <? max_port)%Z)%nat /\
    num_sessions c' = S (num_sessions c).
Proof.
  unfold count_outgoing. intro H.
  apply bind_ok in H. destruct H as (private_2 & _ & H).
  apply bind_ok in H. destruct H as (tcp & _ & H).
  apply bind_ok in H. destruct H as (udp & _ & H).
  apply bind_ok in H. destruct H as (icmp & _ & H).
  apply bind_ok in H. destruct H as (src & Hsrc & H).
  apply bind_ok in H. destruct H as (dst & _ & H).
  injection H as <-. simpl.
  apply bump_port_ok in Hsrc. destruct Hsrc as (p & Hp & Hsum & _).
  exists p. repeat split; assumption.
Qed.

(** What one turn of the loop does to the source histogram and to the
    session count. *)
Lemma extract_features_body_ok (capture_source : source) (max_port : Z)
  (c c' : counters) (entry : session_key * session) :
  extract_features_body capture_source max_port c entry = Ok c' ->
  list_sum (num_source_sess c')
  = (list_sum (num_source_sess c)
     + b2n (from_capture_source capture_source entry
            && source_port_below max_port entry))%nat /\
  num_sessions c'
  = (num_sessions c + b2n (from_capture_source capture_source entry))%nat /\
  b2n (from_capture_source capture_source entry)
  = (b2n (from_capture_source capture_source entry
          && source_port_below max_port entry)
     + b2n (from_capture_source capture_source entry
            && source_port_from max_port entry))%nat.
Proof.
  destruct entry as [key sess].
  unfold extract_features_body, from_capture_source, source_port_below,
    source_port_from, source_port, first_header.
  cbn [fst snd]. intro H.
  apply bind_ok in H. destruct H as ([address_1 port_1] & Hk1 & H).
  apply bind_ok in H. destruct H as ([address_2 port_2] & Hk2 & H).
  apply bind_ok in H. destruct H as (pkt & Hpkt & H).
  apply bind_ok in H. destruct H as (first_packet & Hfirst & H).
  rewrite Hk1, Hpkt. cbn [bind snd]. rewrite Hfirst.
  destruct (extract_macs first_packet) as [source_mac destination_mac].
  cbn [fst].
  apply bind_ok in H. destruct H as (c1 & Hout & H).
  assert (Hin : num_source_sess c' = num_source_sess c1 /\
                num_sessions c' = num_sessions c1).
  { destruct (mac_is destination_mac capture_source).
    - apply count_incoming_ok in H. tauto.
    - injection H as <-. tauto. }
  destruct Hin as [-> ->].
  destruct (mac_is source_mac capture_source).
  - apply count_outgoing_ok in Hout. destruct Hout as (p & -> & Hsum & Hnum).
    rewrite Hsum, Hnum. cbn [andb].
    destruct (Z.ltb_spec p max_port), (Z.leb_spec max_port p); simpl; lia.
  - injection Hout as <-. simpl. lia.
Qed.

Lemma aggregate_loop_ok (capture_source : source) (max_port : Z)
  (entries : session_dict) (c c' : counters) :
  for_each (extract_features_body capture_source max_port) entries c = Ok c' ->
  list_sum (num_source_sess c')
  = (list_sum (num_source_sess c)
     + List.length
         (filter (fun e => from_capture_source capture_source e
                           && source_port_below max_port e) entries))%nat /\
  num_sessions c'
  = (num_sessions c
     + List.length (filter (from_capture_source capture_source) entries))%nat
  /\
  List.length (filter (from_capture_source capture_source) entries)
  = (List.length
       (filter (fun e => from_capture_source capture_source e
                         && source_port_below max_port e) entries)
     + List.length
         (filter (fun e => from_capture_source capture_source e
                           && source_port_from max_port e) entries))%nat.
Proof.
  revert c. induction entries as [| entry entries IH]; intros c H; simpl in H.
  - injection H as <-. simpl. lia.
  - apply bind_ok in H. destruct H as (c1 & Hbody & H).
    apply extract_features_body_ok in Hbody.
    destruct Hbody as (Hsum & Hnum & Hsplit).
    destruct (IH c1 H) as (IHsum & IHnum & IHsplit).
    simpl filter.
    destruct (from_capture_source capture_source entry);
      destruct (source_port_below max_port entry);
      destruct (source_port_from max_port entry);
      simpl in *; lia.
Qed.

(** *** The loop returns on well-formed entries *)

Lemma returns_ok {A : Type} (r : result A) :
  returns r = true -> exists a, r = Ok a.
Proof. destruct r as [a | e]; [eauto | discriminate]. Qed.

Lemma unpack2_ok (l : list string) (a b : string) :
  unpack2 l = Ok (a, b) -> l = [a; b].
Proof.
  destruct l as [| x [| y [| z l]]]; simpl; intro H; try discriminate.
  now injection H as -> ->.
Qed.

Lemma bump_port_total (hist : list nat) (port : string) (max_port : Z) :
  List.length hist = Z.to_nat max_port -> port_ok port = true ->
  exists hist',
    bump_port hist port max_port = Ok hist' /\
    List.length hist' = Z.to_nat max_port.
Proof.
  intros Hlen Hport. unfold port_ok in Hport. unfold bump_port.
  destruct (Py.int 10 port) as [p |]; [| discriminate]. simpl.
  apply Z.leb_le in Hport.
  destruct (Z.ltb_spec p max_port).
  - destruct (list_incr_in_range hist max_port p Hlen) as [hist' H']; [lia |].
    exists hist'. split; [exact H' |].
    apply list_incr_ok in H'. destruct H' as [_ ->]. exact Hlen.
  - exists hist. now split.
Qed.

Lemma is_protocol_total (sess : session) (protocol : string) :
  returns (first_header sess) = true ->
  exists b, is_protocol sess protocol = Ok b.
Proof.
  unfold first_header, is_protocol, extract_protocol.
  destruct (Py.item sess 0) as [pkt |]; [| discriminate]. simpl.
  destruct (packet_item1 pkt) as [hex |]; [| discriminate]. simpl.
  eexists. reflexivity.
Qed.

Lemma extract_features_body_total (capture_source : source) (max_port : Z)
  (c : counters) (entry : session_key * session) :
  well_formed entry = true -> sized max_port c ->
  exists c',
    extract_features_body capture_source max_port c entry = Ok c' /\
    sized max_port c'.
Proof.
  destruct entry as [key sess]. unfold well_formed. cbn [fst snd].
  intros Hwf [Hsrc Hdst]. unfold extract_features_body.
  destruct (unpack2 (Py.split ":" (fst key))) as [[address_1 port_1] |];
    [| discriminate].
  destruct (unpack2 (Py.split ":" (snd key))) as [[address_2 port_2] |];
    [| discriminate].
  cbn [bind].
  apply andb_prop in Hwf. destruct Hwf as [Hwf Hp2].
  apply andb_prop in Hwf. destruct Hwf as [Hwf Hp1].
  apply andb_prop in Hwf. destruct Hwf as [Hwf Ha2].
  apply andb_prop in Hwf. destruct Hwf as [Hhdr Ha1].
  destruct (is_protocol_total sess "06" Hhdr) as [tcp Htcp].
  destruct (is_protocol_total sess "11" Hhdr) as [udp Hudp].
  destruct (is_protocol_total sess "01" Hhdr) as [icmp Hicmp].
  unfold first_header in Hhdr.
  destruct (Py.item sess 0) as [pkt |]; [| discriminate]. cbn [bind] in *.
  destruct (packet_item1 pkt) as [first_packet |]; [| discriminate].
  cbn [bind].
  destruct (extract_macs first_packet) as [source_mac destination_mac].
  apply returns_ok in Ha1, Ha2.
  destruct Ha1 as [private_1 Ha1]. destruct Ha2 as [private_2 Ha2].
  assert (Hout : exists c1,
             (if mac_is source_mac capture_source
              then count_outgoing max_port c sess address_1 port_1
                     address_2 port_2
              else Ok c) = Ok c1 /\ sized max_port c1).
  { destruct (mac_is source_mac capture_source).
    - unfold count_outgoing. rewrite Ha2, Htcp, Hudp, Hicmp. cbn [bind].
      destruct (bump_port_total _ port_1 max_port Hsrc Hp1) as (s1 & -> & Hs1).
      destruct (bump_port_total _ port_2 max_port Hdst Hp2) as (d1 & -> & Hd1).
      cbn [bind]. eexists. split; [reflexivity |]. split; assumption.
    - exists c. split; [reflexivity | split; assumption]. }
  destruct Hout as (c1 & -> & Hs1 & Hd1). cbn [bind].
  destruct (mac_is destination_mac capture_source).
  - unfold count_incoming. rewrite Ha1. cbn [bind].
    destruct private_1; eexists; (split; [reflexivity |]); split; assumption.
  - exists c1. split; [reflexivity | split; assumption].
Qed.

Lemma aggregate_loop_total (capture_source : source) (max_port : Z)
  (entries : session_dict) (c : counters) :
  forallb well_formed entries = true -> sized max_port c ->
  exists c',
    for_each (extract_features_body capture_source max_port) entries c = Ok c'.
Proof.
  revert c. induction entries as [| entry entries IH]; intros c Hwf Hc; simpl.
  - eexists. reflexivity.
  - simpl in Hwf. apply andb_prop in Hwf. destruct Hwf as [He Hwf].
    destruct (extract_features_body_total capture_source max_port c entry
                He Hc) as (c1 & -> & Hc1).
    cbn [bind]. now apply IH.
Qed.

Lemma well_formed_readable (entry : session_key * session) :
  well_formed entry = true -> readable entry = true.
Proof.
  destruct entry as [key sess]. unfold well_formed, readable, both_private.
  cbn [fst snd].
  destruct (unpack2 (Py.split ":" (fst key))) as [[address_1 port_1] |] eqn:E1;
    [| discriminate].
  destruct (unpack2 (Py.split ":" (snd key))) as [[address_2 port_2] |] eqn:E2;
    [| discriminate].
  apply unpack2_ok in E1, E2. unfold before_colon. rewrite E1, E2.
  intro Hwf.
  apply andb_prop in Hwf. destruct Hwf as [Hwf _].
  apply andb_prop in Hwf. destruct Hwf as [Hwf _].
  apply andb_prop in Hwf. destruct Hwf as [Hwf Ha2].
  apply andb_prop in Hwf. destruct Hwf as [Hhdr Ha1].
  rewrite Hhdr. cbn [andb].
  apply returns_ok in Ha1, Ha2.
  destruct Ha1 as [b1 ->]. destruct Ha2 as [b2 ->].
  simpl. destruct b2; reflexivity.
Qed.

Lemma no_char_app (c : ascii) (s t : string) :
  no_char c (s ++ t) = no_char c s && no_char c t.
Proof.
  induction s as [| x s IH]; simpl; [reflexivity |].
  now rewrite IH, andb_assoc.
Qed.

Lemma octet_no_colon (n : nat) :
  (n < 256)%nat -> no_char ":" (octet_string n) = true.
Proof.
  apply (forall_below (fun k => no_char ":" (octet_string k))).
  vm_compute. reflexivity.
Qed.

Lemma endpoint_split (address port : string) :
  no_char ":" address = true -> no_char ":" port = true ->
  unpack2 (Py.split ":" (address ++ ":" ++ port)%string)
  = Ok (address, port).
Proof.
  intros Ha Hp. cbn [append].
  now rewrite split_app_sep, split_no_sep.
Qed.

(** The entries the data model describes are well formed: endpoints
    [a.b.c.d:port] with canonical octets and a port that reads as a
    natural number, and a session that starts with a (timestamp, hex)
    pair. *)
Lemma dotted_quad_entry_well_formed
  (a1 b1 c1 d1 a2 b2 c2 d2 : nat) (port_1 port_2 : string)
  (ts : timestamp) (hex : string) (more : session) :
  (a1 < 256 /\ b1 < 256 /\ c1 < 256 /\ d1 < 256)%nat ->
  (a2 < 256 /\ b2 < 256 /\ c2 < 256 /\ d2 < 256)%nat ->
  no_char ":" port_1 = true -> port_ok port_1 = true ->
  no_char ":" port_2 = true -> port_ok port_2 = true ->
  well_formed
    (((dotted_quad a1 b1 c1 d1 ++ ":" ++ port_1)%string,
      (dotted_quad a2 b2 c2 d2 ++ ":" ++ port_2)%string),
     Pair ts hex :: more) = true.
Proof.
  intros (Ha1 & Hb1 & Hc1 & Hd1) (Ha2 & Hb2 & Hc2 & Hd2) Hc Hp Hc' Hp'.
  assert (Hq : forall a b c d, (a < 256)%nat -> (b < 256)%nat ->
                 (c < 256)%nat -> (d < 256)%nat ->
                 no_char ":" (dotted_quad a b c d) = true).
  { intros a b c d Ha Hb Hc0 Hd. unfold dotted_quad.
    rewrite !no_char_app, !octet_no_colon by assumption. reflexivity. }
  unfold well_formed. cbn [fst snd].
  rewrite !endpoint_split by auto.
  rewrite !is_private_dotted_quad by assumption.
  rewrite Hp, Hp'. reflexivity.
Qed.

Lemma get_source_returns (sessions : session_dict) :
  NoDup (keys sessions) -> forallb readable sessions = true ->
  exists s : source, get_source sessions = Ok s.
Proof.
  intros Hnd Hread. rewrite forallb_forall in Hread.
  destruct (get_source_loop sessions sessions no_tallies) as (t & Hloop & _).
  { intros [k v] He. split; [now apply dict_get_in | now apply Hread]. }
  unfold get_source. rewrite Hloop. cbn [bind].
  destruct (List.length sessions =? 0)%nat; eexists; reflexivity.
Qed.

(** C5. On a mapping of well-formed entries with distinct keys the
    capture source is resolved and the loop returns; and whenever it
    returns, the source-port histogram sums to the number of sessions
    whose first packet comes from the capture source and whose source
    port is below [max_port].  Together with the sessions from the
    capture source whose port is [max_port] or more, that is all the
    sessions from the capture source, which is [num_sessions]. *)
Theorem source_histogram_total (session_dict0 : session_dict)
  (given : option source) (max_port : Z) :
  (NoDup (keys session_dict0) ->
   forallb well_formed session_dict0 = true ->
   exists capture_source c,
     resolve session_dict0 given = Ok capture_source /\
     aggregate session_dict0 capture_source max_port = Ok c) /\
  (forall capture_source c,
     resolve session_dict0 given = Ok capture_source ->
     aggregate session_dict0 capture_source max_port = Ok c ->
     list_sum (num_source_sess c)
     = List.length
         (filter (fun e => from_capture_source capture_source e
                           && source_port_below max_port e) session_dict0) /\
     num_sessions c
     = List.length
         (filter (from_capture_source capture_source) session_dict0) /\
     (list_sum (num_source_sess c)
      + List.length
          (filter (fun e => from_capture_source capture_source e
                            && source_port_from max_port e) session_dict0)
      = num_sessions c)%nat).
Proof.
  split.
  - intros Hnd Hwf.
    assert (Hres : exists capture_source,
               resolve session_dict0 given = Ok capture_source).
    { destruct given as [s |]; simpl; [eauto |].
      apply get_source_returns; [exact Hnd |].
      apply forallb_forall. intros e He.
      apply well_formed_readable.
      rewrite forallb_forall in Hwf. now apply Hwf. }
    destruct Hres as [capture_source Hres].
    destruct (aggregate_loop_total capture_source max_port session_dict0
                (initial_counters max_port) Hwf) as [c Hc].
    { unfold sized, initial_counters, zeros. simpl.
      now rewrite repeat_length. }
    exists capture_source, c. now split.
  - intros capture_source c _ Hagg. unfold aggregate in Hagg.
    apply aggregate_loop_ok in Hagg.
    destruct Hagg as (Hsum & Hnum & Hsplit).
    assert (Hzero : list_sum (num_source_sess (initial_counters max_port))
                    = 0%nat).
    { unfold initial_counters, zeros. simpl.
      induction (Z.to_nat max_port) as [| n IH]; simpl; [reflexivity | exact IH]. }
    rewrite Hzero in Hsum. simpl in Hnum. lia.
Qed.

Lemma source_histogram_total_witness :
  (exists capture_source c,
     resolve scenario None = Ok capture_source /\
     aggregate scenario capture_source 1024 = Ok c) /\
  list_sum (num_source_sess scenario_counters)
  = List.length
      (filter (fun e => from_capture_source (Mac "aa:aa:aa:aa:aa:aa") e
                        && source_port_below 1024 e) scenario) /\
  num_sessions scenario_counters
  = List.length
      (filter (from_capture_source (Mac "aa:aa:aa:aa:aa:aa")) scenario) /\
  (list_sum (num_source_sess scenario_counters)
   + List.length
       (filter (fun e => from_capture_source (Mac "aa:aa:aa:aa:aa:aa") e
                         && source_port_from 1024 e) scenario)
   = num_sessions scenario_counters)%nat.
Proof.
  split.
  - apply (proj1 (source_histogram_total scenario None 1024)).
    + repeat constructor; simpl; intuition discriminate.
    + reflexivity.
  - apply (proj2 (source_histogram_total scenario None 1024)
             (Mac "aa:aa:aa:aa:aa:aa") scenario_counters).
    + reflexivity.
    + vm_compute. reflexivity.
Defined.

(** * Further properties of the module *)

(** ** extract_macs *)

Lemma substring_none (n : nat) (s : string) : substring n 0 s = "".
Proof.
  revert n. induction s as [| c s IH]; intros [| n]; simpl; auto.
Qed.

Lemma two_characters (g : string) :
  (String.length g =? 2)%nat = true -> exists a b, g = String a (String b "").
Proof.
  destruct g as [| a [| b [| c g]]]; simpl; intro H; try discriminate.
  now exists a, b.
Qed.

(** X1. A frame built from six destination octets, six source octets and
    any rest is read back as the two colon-separated MAC addresses,
    source first. *)
Theorem extract_macs_frame (dst src : list string) (rest : string) :
  mac_octets dst = true -> mac_octets src = true ->
  extract_macs (frame dst src rest) = (Py.join ":" src, Py.join ":" dst).
Proof.
  unfold mac_octets. intros Hd Hs.
  apply andb_prop in Hd. destruct Hd as [Hd6 Hd2].
  apply andb_prop in Hs. destruct Hs as [Hs6 Hs2].
  destruct dst as [| d1 [| d2 [| d3 [| d4 [| d5 [| d6 [| d7 dst]]]]]]];
    try discriminate Hd6.
  destruct src as [| s1 [| s2 [| s3 [| s4 [| s5 [| s6 [| s7 src]]]]]]];
    try discriminate Hs6.
  simpl in Hd2, Hs2.
  repeat match goal with
         | [ H : _ && _ = true |- _ ] =>
             apply andb_prop in H; destruct H as [?H H]
         end.
  repeat match goal with
         | [ H : (String.length ?g =? 2)%nat = true |- _ ] =>
             apply two_characters in H; destruct H as (? & ? & ->)
         end.
  unfold extract_macs, frame, Py.slice, Py.join. cbn.
  rewrite substring_none. reflexivity.
Qed.

Lemma extract_macs_frame_witness :
  extract_macs
    (frame ["de"; "ad"; "be"; "ef"; "00"; "01"]
           ["0a"; "1b"; "2c"; "3d"; "4e"; "5f"] "08004500")
  = ("0a:1b:2c:3d:4e:5f", "de:ad:be:ef:00:01").
Proof.
  apply (extract_macs_frame ["de"; "ad"; "be"; "ef"; "00"; "01"]
           ["0a"; "1b"; "2c"; "3d"; "4e"; "5f"] "08004500"); reflexivity.
Defined.

(** ** is_private beyond canonical dotted quads *)

Lemma one_character_differs (a c1 c2 : ascii) (r : string) :
  String.eqb (String a "") (String c1 (String c2 r)) = false.
Proof. simpl. destruct (Ascii.eqb a c1); reflexivity. Qed.

(** X2. A string of exactly four characters is taken for an already
    split address: its characters are the pieces, none of them can be
    "10", "192" or "172", and the answer is [False] whatever the string,
    "10.1" included. *)
Theorem is_private_four_characters (s : string) :
  String.length s = 4%nat -> is_private (AStr s) = Ok false.
Proof.
  destruct s as [| a [| b [| c [| d [| e s]]]]]; simpl; intro H;
    try discriminate H.
  change (is_private (AStr (String a (String b (String c (String d ""))))))
    with (classify [String a ""; String b ""; String c ""; String d ""]).
  unfold classify. cbn [Py.item nth_error bind].
  rewrite !one_character_differs. reflexivity.
Qed.

Lemma is_private_four_characters_witness :
  is_private (AStr "10.1") = Ok false.
Proof. apply (is_private_four_characters "10.1"). reflexivity. Defined.

Lemma classify_true_iff (pieces : list string) :
  classify pieces = Ok true <-> private_pieces pieces.
Proof.
  unfold private_pieces. split.
  - destruct pieces as [| p0 rest]; [discriminate |].
    intro H. exists p0, rest. split; [reflexivity |].
    unfold classify in H. simpl in H.
    destruct (String.eqb_spec p0 "10") as [-> | N10]; [now left |].
    destruct (String.eqb_spec p0 "192") as [-> | N192].
    + right. left. split; [reflexivity |].
      destruct rest as [| p1 r]; [discriminate H |]. simpl in H.
      destruct (String.eqb_spec p1 "168") as [-> | N168];
        [now exists r | discriminate H].
    + destruct (String.eqb_spec p0 "172") as [-> | N172];
        [| discriminate H].
      right. right. split; [reflexivity |].
      destruct rest as [| p1 r]; [discriminate H |]. simpl in H.
      destruct (Py.int 10 p1) as [v |] eqn:Hv; [| discriminate H].
      simpl in H.
      exists p1, r, v. split; [reflexivity | split; [exact Hv |]].
      destruct (Z.leb_spec 16 v), (Z.leb_spec v 31);
        try discriminate H. lia.
  - intros (p0 & rest & -> & [-> | [[-> [r ->]] | [-> H]]]).
    + reflexivity.
    + reflexivity.
    + destruct H as (p1 & r & v & -> & Hv & Hlo & Hhi).
      unfold classify. simpl. rewrite Hv. simpl.
      destruct (Z.leb_spec 16 v), (Z.leb_spec v 31); try lia.
      reflexivity.
Qed.

(** X3. On a string of more than four characters [is_private] answers
    [True] exactly when its first piece is "10", or its first two pieces
    are "192" and "168", or its first piece is "172" and the second reads
    as an integer from 16 to 31; the later pieces, and how many there
    are, play no part. *)
Theorem is_private_true_iff (s : string) :
  (4 < String.length s)%nat ->
  (is_private (AStr s) = Ok true <-> private_pieces (Py.split "." s)).
Proof.
  intro H. unfold is_private, bind_pairs. simpl address_len.
  apply Nat.ltb_lt in H. rewrite H. simpl bind.
  apply classify_true_iff.
Qed.

Lemma is_private_true_iff_witness :
  is_private (AStr "10.zz") = Ok true /\
  is_private (AStr "192.168") = Ok true /\
  private_pieces (Py.split "." "172.31.255.255.9").
Proof.
  refine (conj _ (conj _ _)).
  - apply (proj2 (is_private_true_iff "10.zz" ltac:(simpl; lia))).
    exists "10", ["zz"]. split; [reflexivity | now left].
  - apply (proj2 (is_private_true_iff "192.168" ltac:(simpl; lia))).
    exists "192", ["168"]. split; [reflexivity |].
    right. left. split; [reflexivity | now exists []].
  - apply (proj1 (is_private_true_iff "172.31.255.255.9" ltac:(simpl; lia))).
    reflexivity.
Defined.

(** X4. A list argument: fewer than four pieces leave [pairs] unassigned,
    more than four are sent to [split] and fail, and the four pieces of
    a string get the answer the string itself gets. *)
Theorem is_private_list (l : list string) :
  ((List.length l < 4)%nat ->
   is_private (AList l) = Raise UnboundLocalError) /\
  ((4 < List.length l)%nat ->
   is_private (AList l) = Raise AttributeError) /\
  (forall s : string,
     (4 < String.length s)%nat -> l = Py.split "." s ->
     List.length l = 4%nat ->
     is_private (AList l) = is_private (AStr s)).
Proof.
  unfold is_private, bind_pairs. simpl address_len.
  refine (conj _ (conj _ _)).
  - intro H. destruct (Nat.ltb_spec 4 (List.length l)); [lia |].
    destruct (Nat.eqb_spec (List.length l) 4); [lia | reflexivity].
  - intro H. apply Nat.ltb_lt in H. now rewrite H.
  - intros s Hs -> Hl. rewrite Hl. simpl.
    apply Nat.ltb_lt in Hs. rewrite Hs. reflexivity.
Qed.

Lemma is_private_list_witness :
  is_private (AList ["10"; "0"; "1"]) = Raise UnboundLocalError /\
  is_private (AList ["10"; "0"; "0"; "0"; "1"]) = Raise AttributeError /\
  is_private (AList ["172"; "20"; "3"; "4"]) = is_private (AStr "172.20.3.4").
Proof.
  refine (conj _ (conj _ _)).
  - apply (proj1 (is_private_list ["10"; "0"; "1"])). simpl. lia.
  - apply (proj1 (proj2 (is_private_list ["10"; "0"; "0"; "0"; "1"]))).
    simpl. lia.
  - apply (proj2 (proj2 (is_private_list ["172"; "20"; "3"; "4"]))
             "172.20.3.4"); [simpl; lia | reflexivity | reflexivity].
Defined.

(** ** is_external on dotted quads *)

Lemma prefix_within (w rest : string) :
  (2 <= String.length w)%nat ->
  Py.slice 0 3 (w ++ String "." rest) = Py.slice 0 3 (w ++ ".").
Proof.
  destruct w as [| x [| y [| z w]]]; simpl; intro H; try lia;
    unfold Py.slice; simpl; now rewrite !substring_none.
Qed.

Lemma octet_two_digits (n : nat) :
  (10 <= n)%nat -> (2 <= String.length (octet_string n))%nat.
Proof.
  intro H. unfold octet_string.
  destruct (Nat.ltb_spec n 10); [lia |].
  destruct (n <? 100)%nat; simpl; lia.
Qed.

(** X5. For dotted quads whose first octets are both 10 or more, the
    three-character comparison of [is_external] is a comparison of the
    first octets: the answer is [True] exactly when they are equal. *)
Theorem is_external_first_octet (a b c d a' b' c' d' : nat) :
  (10 <= a < 256)%nat -> (10 <= a' < 256)%nat ->
  (is_external (dotted_quad a b c d) (dotted_quad a' b' c' d') = true
   <-> a = a').
Proof.
  intros Ha Ha'. rewrite is_external_true_iff. unfold dotted_quad.
  cbn [append].
  rewrite (prefix_within (octet_string a)),
    (prefix_within (octet_string a')) by (apply octet_two_digits; lia).
  assert (Hcheck : prefix_check a a' = true).
  { assert (Hrow : forallb (prefix_check a) (seq 0 256) = true).
    { apply (forall_below
               (fun a => forallb (prefix_check a) (seq 0 256)) 256);
        [vm_compute; reflexivity | lia]. }
    apply (forall_below (prefix_check a) 256 Hrow). lia. }
  unfold prefix_check in Hcheck. apply Bool.eqb_prop in Hcheck.
  rewrite <- Nat.eqb_eq, <- Hcheck. symmetry. apply String.eqb_eq.
Qed.

Lemma is_external_first_octet_witness :
  is_external "192.168.1.5" "192.10.0.7" = true /\
  ~ is_external "10.0.0.1" "100.0.0.1" = true.
Proof.
  split.
  - apply (proj2 (is_external_first_octet 192 168 1 5 192 10 0 7
                    ltac:(lia) ltac:(lia))). reflexivity.
  - intro H.
    apply (proj1 (is_external_first_octet 10 0 0 1 100 0 0 1
                    ltac:(lia) ltac:(lia))) in H. discriminate H.
Defined.

(** ** Packet and session sizes *)

Lemma substring_length_le (n m : nat) (s : string) :
  (String.length (substring n m s) <= m)%nat.
Proof.
  revert n m. induction s as [| c s IH]; intros [| n] [| m]; simpl;
    try lia.
  - specialize (IH 0%nat m). lia.
  - apply (IH n 0%nat).
  - apply (IH n (S m)).
Qed.

Lemma hex_value_from_bounds (s : string) (acc v : Z) :
  hex_value_from acc s = Some v -> (0 <= acc)%Z ->
  (acc * 16 ^ Z.of_nat (String.length s) <= v
   < (acc + 1) * 16 ^ Z.of_nat (String.length s))%Z.
Proof.
  revert acc. induction s as [| c s IH]; intros acc H Hacc.
  - simpl in *. injection H as <-. lia.
  - simpl in H. destruct (hex_digit c) as [d |] eqn:Hc; [| discriminate H].
    assert (Hd : (0 <= d < 16)%Z).
    { assert (Hr : hex_digit_range c = true)
        by (apply every_ascii; vm_compute; reflexivity).
      unfold hex_digit_range in Hr. rewrite Hc in Hr.
      apply andb_prop in Hr. destruct Hr as [H1 H2].
      apply Z.leb_le in H1. apply Z.ltb_lt in H2. lia. }
    specialize (IH _ H ltac:(lia)).
    change (String.length (String c s)) with (S (String.length s)).
    rewrite Nat2Z.inj_succ, Z.pow_succ_r by lia.
    set (P := (16 ^ Z.of_nat (String.length s))%Z) in *.
    assert (0 < P)%Z by (apply Z.pow_pos_nonneg; lia).
    nia.
Qed.

(** X6. When the length field is made of hex digits, the size of the
    packet is its value and lies between 0 and 65535. *)
Theorem packet_size_range (ts : timestamp) (hex : string) (v : Z) :
  hex_value (length_field hex) = Some v ->
  packet_size (Pair ts hex) = Ok v /\ (0 <= v <= 65535)%Z.
Proof.
  intro H. split.
  - unfold packet_size. simpl. fold (length_field hex).
    now rewrite (int_hex_value _ _ H).
  - assert (Hlen : (String.length (length_field hex) <= 4)%nat)
      by apply substring_length_le.
    unfold hex_value in H.
    destruct (length_field hex) as [| c r] eqn:E; [discriminate H |].
    apply hex_value_from_bounds in H; [| lia].
    assert (16 ^ Z.of_nat (String.length (String c r)) <= 16 ^ 4)%Z
      by (apply Z.pow_le_mono_r; lia).
    change (16 ^ 4)%Z with 65536%Z in *. lia.
Qed.

Lemma packet_size_range_witness :
  packet_size (Pair 7%Z sample_header) = Ok 40%Z /\ (0 <= 40 <= 65535)%Z.
Proof. apply (packet_size_range 7%Z sample_header 40%Z). reflexivity. Defined.

Lemma sum_results_app (l1 l2 : list (result Z)) (n1 n2 : Z) :
  sum_results l1 = Ok n1 -> sum_results l2 = Ok n2 ->
  sum_results (l1 ++ l2) = Ok (n1 + n2)%Z.
Proof.
  revert n1. induction l1 as [| r l1 IH]; simpl; intros n1 H1 H2.
  - injection H1 as <-. now rewrite H2.
  - apply bind_ok in H1. destruct H1 as (v & -> & H1).
    apply bind_ok in H1. destruct H1 as (t & Ht & H1).
    injection H1 as <-. simpl.
    rewrite (IH t Ht H2). simpl. f_equal. lia.
Qed.

(** X7. The size of two runs of packets put end to end is the sum of
    their sizes. *)
Theorem extract_session_size_app (s1 s2 : session) (n1 n2 : Z) :
  extract_session_size s1 = Ok n1 -> extract_session_size s2 = Ok n2 ->
  extract_session_size (s1 ++ s2) = Ok (n1 + n2)%Z.
Proof.
  unfold extract_session_size. rewrite map_app. apply sum_results_app.
Qed.

Lemma extract_session_size_app_witness :
  extract_session_size
    ([Pair 0%Z sample_header; Pair 1%Z "too short"]
     ++ [Pair 2%Z sample_header])
  = Ok (40 + 40)%Z.
Proof.
  apply (extract_session_size_app
           [Pair 0%Z sample_header; Pair 1%Z "too short"]
           [Pair 2%Z sample_header] 40 40); reflexivity.
Defined.

Lemma packet_size_returns (p : packet) :
  returns (packet_size p) = has_item1 p.
Proof.
  destruct p as [ts hex | hex]; unfold packet_size; simpl.
  - destruct (Py.int 16 (Py.slice 32 36 hex)); reflexivity.
  - unfold Py.str_item.
    destruct hex as [| a [| b hex]]; reflexivity.
Qed.

(** X8. [extract_session_size] returns exactly when every packet has a
    second component; a session of (timestamp, hex) pairs always has a
    size, however short or malformed the headers. *)
Theorem extract_session_size_returns (s : session) :
  returns (extract_session_size s) = forallb has_item1 s.
Proof.
  unfold extract_session_size.
  induction s as [| p s IH]; simpl; [reflexivity |].
  rewrite <- IH, <- packet_size_returns.
  destruct (packet_size p); simpl; [| reflexivity].
  destruct (sum_results (map packet_size s)); reflexivity.
Qed.

(** ** get_source: when it returns, and the all-zero MAC *)

Lemma get_source_body_returns (sessions : session_dict) (t : tallies)
  (entry : session_key * session) :
  dict_get sessions (fst entry) = Ok (snd entry) ->
  returns (get_source_body sessions t (fst entry)) = readable entry.
Proof.
  intro Hget. unfold get_source_body, readable, first_header.
  rewrite Hget. simpl bind.
  destruct (Py.item (snd entry) 0) as [pkt |]; simpl; [| reflexivity].
  destruct (packet_item1 pkt) as [hex |]; simpl; [| reflexivity].
  destruct (extract_macs hex) as [source_mac destination_mac].
  fold (both_private (fst entry)).
  destruct (both_private (fst entry)) as [[|] |]; reflexivity.
Qed.

Lemma get_source_loop_returns (sessions : session_dict)
  (entries : list (session_key * session)) (t : tallies) :
  (forall entry, In entry entries ->
     dict_get sessions (fst entry) = Ok (snd entry)) ->
  returns (for_each (get_source_body sessions) (keys entries) t)
  = forallb readable entries.
Proof.
  revert t. induction entries as [| entry entries IH]; intros t H; simpl.
  - reflexivity.
  - rewrite <- (get_source_body_returns sessions t entry)
      by (apply H; now left).
    destruct (get_source_body sessions t (fst entry)) as [t1 |]; simpl.
    + apply IH. intros e He. apply H. now right.
    + reflexivity.
Qed.

(** X9. On a mapping with distinct keys, [get_source] returns exactly
    when every session has a first packet with a second component and
    [is_private] returns on the addresses it is asked about; one entry
    that fails this makes the whole call raise. *)
Theorem get_source_returns_iff (sessions : session_dict) :
  NoDup (keys sessions) ->
  returns (get_source sessions) = forallb readable sessions.
Proof.
  intro Hnd.
  rewrite <- (get_source_loop_returns sessions sessions no_tallies)
    by (intros [k v] He; now apply dict_get_in).
  unfold get_source.
  destruct (for_each (get_source_body sessions) (keys sessions) no_tallies);
    simpl; [| reflexivity].
  destruct (List.length sessions =? 0)%nat; reflexivity.
Qed.

Lemma get_source_returns_iff_witness :
  returns
    (get_source
       [(("192.168.1.5:80", "192.168.1.10:4000"),
         [Pair 0%Z (header "bbbbbbbbbbbb" "aaaaaaaaaaaa" "06")]);
        (("192.168.1.5:81", "172.x:4000"),
         [Pair 1%Z (header "bbbbbbbbbbbb" "aaaaaaaaaaaa" "06")])])
  = false.
Proof.
  rewrite get_source_returns_iff.
  - reflexivity.
  - repeat constructor; simpl; intuition discriminate.
Defined.

(** X10. A mapping that has sessions, none of which joins two private
    addresses, gets the all-zero MAC as capture source. *)
Theorem get_source_no_private_session (sessions : session_dict) :
  NoDup (keys sessions) ->
  forallb readable sessions = true ->
  sessions <> [] ->
  (forall entry, In entry sessions -> both_private (fst entry) <> Ok true) ->
  get_source sessions = Ok (Mac "00:00:00:00:00:00").
Proof.
  intros Hnd Hread Hne Hnone.
  rewrite forallb_forall in Hread.
  destruct (get_source_loop sessions sessions no_tallies) as (t & Hloop & Hmacs).
  { intros [k v] He. split; [now apply dict_get_in | now apply Hread]. }
  assert (Hnil : flat_map sightings_of sessions = []).
  { clear - Hnone. induction sessions as [| e l IH]; [reflexivity |].
    simpl. rewrite IH by (intros e' He'; apply Hnone; now right).
    rewrite app_nil_r. unfold sightings_of.
    specialize (Hnone e (or_introl eq_refl)).
    destruct (both_private (fst e)) as [[|] |]; try reflexivity.
    now contradiction Hnone. }
  rewrite Hnil in Hmacs. simpl in Hmacs.
  unfold get_source. rewrite Hloop. simpl bind.
  destruct sessions as [| e l]; [now contradiction Hne |].
  simpl. rewrite Hmacs. reflexivity.
Qed.

Lemma get_source_no_private_session_witness :
  get_source
    [(("8.8.8.8:53", "192.168.1.5:4000"),
      [Pair 0%Z (header "bbbbbbbbbbbb" "aaaaaaaaaaaa" "11")]);
     (("192.168.1.5:4001", "1.1.1.1:443"),
      [Pair 1%Z (header "aaaaaaaaaaaa" "bbbbbbbbbbbb" "06")])]
  = Ok (Mac "00:00:00:00:00:00").
Proof.
  apply get_source_no_private_session.
  - repeat constructor; simpl; intuition discriminate.
  - reflexivity.
  - discriminate.
  - intros entry [<- | [<- | []]]; discriminate.
Defined.

(** ** extract_features: what every returned result satisfies *)

Lemma count_outgoing_inv (max_port : Z) (c c' : counters) (sess : session)
  (address_1 port_1 address_2 port_2 : string) :
  count_outgoing max_port c sess address_1 port_1 address_2 port_2 = Ok c' ->
  exists private_2 tcp udp icmp src dst,
    is_private (AStr address_2) = Ok private_2 /\
    is_protocol sess "06" = Ok tcp /\
    is_protocol sess "11" = Ok udp /\
    is_protocol sess "01" = Ok icmp /\
    bump_port (num_source_sess c) port_1 max_port = Ok src /\
    bump_port (num_destination_sess c) port_2 max_port = Ok dst /\
    c' = mkCounters src dst (S (num_sessions c))
           (add_bool (num_external c) (is_external address_1 address_2))
           (add_bool (num_tcp_sess c) tcp) (add_bool (num_udp_sess c) udp)
           (add_bool (num_icmp_sess c) icmp)
           (if private_2 then incr (other_ips c) address_2 else other_ips c).
Proof.
  unfold count_outgoing. intro H.
  apply bind_ok in H. destruct H as (private_2 & H1 & H).
  apply bind_ok in H. destruct H as (tcp & H2 & H).
  apply bind_ok in H. destruct H as (udp & H3 & H).
  apply bind_ok in H. destruct H as (icmp & H4 & H).
  apply bind_ok in H. destruct H as (src & H5 & H).
  apply bind_ok in H. destruct H as (dst & H6 & H).
  injection H as <-.
  exists private_2, tcp, udp, icmp, src, dst. repeat split; assumption.
Qed.

Lemma count_incoming_inv (c c' : counters) (address_1 : string) :
  count_incoming c address_1 = Ok c' ->
  exists private_1,
    is_private (AStr address_1) = Ok private_1 /\
    c' = mkCounters (num_source_sess c) (num_destination_sess c)
           (num_sessions c) (num_external c) (num_tcp_sess c)
           (num_udp_sess c) (num_icmp_sess c)
           (if private_1 then incr (other_ips c) address_1 else other_ips c).
Proof.
  unfold count_incoming. intro H.
  apply bind_ok in H. destruct H as (private_1 & H1 & H).
  exists private_1. split; [exact H1 |].
  destruct private_1; injection H as <-; [reflexivity |].
  now destruct c.
Qed.

(** The steps of one turn of the loop, when it returns. *)
Lemma extract_features_body_inv (capture_source : source) (max_port : Z)
  (c c' : counters) (entry : session_key * session) :
  extract_features_body capture_source max_port c entry = Ok c' ->
  exists address_1 port_1 address_2 port_2 hex c1,
    unpack2 (Py.split ":" (fst (fst entry))) = Ok (address_1, port_1) /\
    unpack2 (Py.split ":" (snd (fst entry))) = Ok (address_2, port_2) /\
    first_header (snd entry) = Ok hex /\
    (if mac_is (fst (extract_macs hex)) capture_source
     then count_outgoing max_port c (snd entry) address_1 port_1
            address_2 port_2
     else Ok c) = Ok c1 /\
    (if mac_is (snd (extract_macs hex)) capture_source
     then count_incoming c1 address_1
     else Ok c1) = Ok c'.
Proof.
  destruct entry as [key sess]. unfold extract_features_body, first_header.
  cbn [fst snd]. intro H.
  apply bind_ok in H. destruct H as ([address_1 port_1] & Hk1 & H).
  apply bind_ok in H. destruct H as ([address_2 port_2] & Hk2 & H).
  apply bind_ok in H. destruct H as (pkt & Hpkt & H).
  apply bind_ok in H. destruct H as (hex & Hhex & H).
  rewrite Hpkt. cbn [bind]. rewrite Hhex.
  destruct (extract_macs hex) as [source_mac destination_mac] eqn:Emacs.
  apply bind_ok in H. destruct H as (c1 & Hout & H).
  exists address_1, port_1, address_2, port_2, hex, c1.
  rewrite Emacs. cbn [fst snd]. now repeat split.
Qed.

Lemma is_protocol_exclusive (sess : session) (tcp udp icmp : bool) :
  is_protocol sess "06" = Ok tcp ->
  is_protocol sess "11" = Ok udp ->
  is_protocol sess "01" = Ok icmp ->
  (b2n tcp + b2n udp + b2n icmp <= 1)%nat.
Proof.
  unfold is_protocol.
  destruct (extract_protocol sess) as [p |]; [| discriminate]. cbn [bind].
  intros H1 H2 H3.
  assert (E1 : tcp = String.eqb "06" p)
    by (destruct (String.eqb "06" p); congruence).
  assert (E2 : udp = String.eqb "11" p)
    by (destruct (String.eqb "11" p); congruence).
  assert (E3 : icmp = String.eqb "01" p)
    by (destruct (String.eqb "01" p); congruence).
  subst tcp udp icmp. clear H1 H2 H3.
  destruct (String.eqb_spec "06" p) as [<- | ?]; [cbn; lia |].
  destruct (String.eqb_spec "11" p) as [<- | ?]; [cbn; lia |].
  destruct (String.eqb "01" p); cbn; lia.
Qed.

Lemma add_bool_b2n (n : nat) (b : bool) : add_bool n b = (n + b2n b)%nat.
Proof. destruct b; simpl; lia. Qed.

Lemma bump_port_sum_le (hist hist' : list nat) (port : string) (max_port : Z) :
  bump_port hist port max_port = Ok hist' ->
  (list_sum hist' <= S (list_sum hist))%nat /\
  List.length hist' = List.length hist.
Proof.
  intro H. apply bump_port_ok in H. destruct H as (p & _ & Hs & Hl).
  split; [| exact Hl]. destruct (p <? max_port)%Z; simpl in Hs; lia.
Qed.

(** One turn of the loop keeps the histograms' widths and keeps every
    counter within the number of sessions counted. *)
Lemma extract_features_body_within (capture_source : source) (max_port : Z)
  (c c' : counters) (entry : session_key * session) :
  extract_features_body capture_source max_port c entry = Ok c' ->
  (within c -> within c') /\
  List.length (num_source_sess c') = List.length (num_source_sess c) /\
  List.length (num_destination_sess c')
  = List.length (num_destination_sess c).
Proof.
  intro H. apply extract_features_body_inv in H.
  destruct H as (a1 & p1 & a2 & p2 & hex & c1 & _ & _ & _ & Hout & Hin).
  assert (Hc1 : (within c -> within c1) /\
                List.length (num_source_sess c1)
                = List.length (num_source_sess c) /\
                List.length (num_destination_sess c1)
                = List.length (num_destination_sess c)).
  { destruct (mac_is (fst (extract_macs hex)) capture_source).
    - apply count_outgoing_inv in Hout.
      destruct Hout as (pr & tcp & udp & icmp & src & dst
                        & _ & Ht & Hu & Hi & Hs & Hd & ->).
      pose proof (is_protocol_exclusive _ _ _ _ Ht Hu Hi).
      apply bump_port_sum_le in Hs, Hd.
      destruct Hs as [Hs Hsl]. destruct Hd as [Hd Hdl].
      unfold within. cbn -[list_sum]. rewrite !add_bool_b2n.
      split; [| split; assumption].
      intros (H1 & H2 & H3 & H4).
      destruct (is_external a1 a2); cbn -[list_sum]; repeat split; lia.
    - injection Hout as <-. tauto. }
  assert (Hc' : num_source_sess c' = num_source_sess c1 /\
                num_destination_sess c' = num_destination_sess c1 /\
                num_sessions c' = num_sessions c1 /\
                num_external c' = num_external c1 /\
                num_tcp_sess c' = num_tcp_sess c1 /\
                num_udp_sess c' = num_udp_sess c1 /\
                num_icmp_sess c' = num_icmp_sess c1).
  { destruct (mac_is (snd (extract_macs hex)) capture_source).
    - apply count_incoming_inv in Hin. destruct Hin as (pr & _ & ->).
      cbn. tauto.
    - injection Hin as <-. tauto. }
  destruct Hc' as (E1 & E2 & E3 & E4 & E5 & E6 & E7).
  unfold within in *. rewrite E1, E2, E3, E4, E5, E6, E7. exact Hc1.
Qed.

Lemma aggregate_within (session_dict0 : session_dict)
  (capture_source : source) (max_port : Z) (c : counters) :
  aggregate session_dict0 capture_source max_port = Ok c ->
  within c /\ sized max_port c.
Proof.
  unfold aggregate.
  assert (Hinit : within (initial_counters max_port)
                  /\ sized max_port (initial_counters max_port)).
  { unfold within, sized, initial_counters, zeros. cbn -[list_sum].
    rewrite repeat_length.
    assert (list_sum (repeat 0%nat (Z.to_nat max_port)) = 0%nat)
      by (induction (Z.to_nat max_port); simpl; auto).
    lia. }
  revert Hinit. generalize (initial_counters max_port) as c0.
  induction session_dict0 as [| entry entries IH]; intros c0 Hinit H;
    simpl in H.
  - now injection H as <-.
  - apply bind_ok in H. destruct H as (c1 & Hbody & H).
    apply extract_features_body_within in Hbody.
    destruct Hbody as (Hw & Hs & Hd).
    apply (IH c1); [| exact H].
    destruct Hinit as [Hw0 [Hs0 Hd0]].
    split; [now apply Hw | split; congruence].
Qed.

(** X11. Whatever the mapping and the capture source, a returned feature
    vector has [2*max_port + 4] entries ([max_port] counted as 0 when it
    is negative). *)
Theorem extract_features_length (session_dict0 : session_dict)
  (given : option source) (max_port : Z)
  (v : list Q) (capture_source : source) (peers : list string) :
  extract_features session_dict0 given max_port
  = Ok (v, capture_source, peers) ->
  List.length v = (2 * Z.to_nat max_port + 4)%nat.
Proof.
  unfold extract_features. intro H.
  apply bind_ok in H. destruct H as (cs & _ & H).
  apply bind_ok in H. destruct H as (c & Hagg & H).
  injection H as <- _ _.
  apply aggregate_within in Hagg. destruct Hagg as [_ [Hs Hd]].
  unfold normalise. rewrite length_app, length_map, length_app, Hs, Hd.
  simpl. lia.
Qed.

Lemma extract_features_length_witness :
  exists v : list Q,
    extract_features scenario None 1024
    = Ok (v, Mac "aa:aa:aa:aa:aa:aa", ["192.168.1.10"; "192.168.1.11"]) /\
    List.length v = (2 * Z.to_nat 1024 + 4)%nat.
Proof.
  eexists. split; [vm_compute; reflexivity |].
  eapply (extract_features_length scenario None 1024).
  vm_compute. reflexivity.
Defined.

Lemma in_le_list_sum (n : nat) (l : list nat) :
  In n l -> (n <= list_sum l)%nat.
Proof.
  induction l as [| m l IH]; simpl; intros H; [contradiction |].
  destruct H as [-> | H]; [lia | specialize (IH H); lia].
Qed.

Lemma true_div_unit (n d : nat) :
  (n <= d)%nat -> (1 <= d)%nat -> (0 <= true_div n d <= 1)%Q.
Proof.
  intros Hn Hd. unfold true_div. rewrite Qred_correct.
  destruct d as [| d]; [lia |].
  rewrite <- Pos.of_nat_succ.
  unfold Qle. cbn [Qnum Qden]. rewrite Zpos_P_of_succ_nat. lia.
Qed.

(** X12. Every entry of a returned feature vector is a fraction between
    0 and 1. *)
Theorem extract_features_unit_interval (session_dict0 : session_dict)
  (given : option source) (max_port : Z)
  (v : list Q) (capture_source : source) (peers : list string) :
  extract_features session_dict0 given max_port
  = Ok (v, capture_source, peers) ->
  Forall (fun q => (0 <= q <= 1)%Q) v.
Proof.
  unfold extract_features. intro H.
  apply bind_ok in H. destruct H as (cs & _ & H).
  apply bind_ok in H. destruct H as (c & Hagg & H).
  injection H as <- _ _.
  apply aggregate_within in Hagg.
  destruct Hagg as [(He & Hp & Hs & Hd) _].
  unfold normalise.
  set (n1 := if (num_sessions c =? 0)%nat then S (num_sessions c)
             else num_sessions c).
  assert (Hn1 : (1 <= n1 /\ num_sessions c <= n1)%nat).
  { unfold n1. destruct (Nat.eqb_spec (num_sessions c) 0); lia. }
  apply Forall_app. split.
  - apply Forall_map, Forall_forall. intros n Hn.
    apply true_div_unit; [| lia].
    apply in_app_or in Hn. destruct Hn as [Hn | Hn];
      apply in_le_list_sum in Hn; lia.
  - repeat constructor; apply true_div_unit; lia.
Qed.

Lemma extract_features_unit_interval_witness :
  exists v : list Q,
    extract_features tied_sessions None 64
    = Ok (v, Mac "bb:bb:bb:bb:bb:bb", ["192.168.1.5"]) /\
    Forall (fun q => (0 <= q <= 1)%Q) v.
Proof.
  eexists. split; [vm_compute; reflexivity |].
  eapply (extract_features_unit_interval tied_sessions None 64).
  vm_compute. reflexivity.
Defined.

(** X13. When the loop returns, no session has been counted under two
    protocols and none twice as external: the TCP, UDP and ICMP counts
    together, and the external count, stay within the session count. *)
Theorem aggregate_counts_within (session_dict0 : session_dict)
  (capture_source : source) (max_port : Z) (c : counters) :
  aggregate session_dict0 capture_source max_port = Ok c ->
  (num_tcp_sess c + num_udp_sess c + num_icmp_sess c <= num_sessions c)%nat /\
  (num_external c <= num_sessions c)%nat.
Proof.
  intro H. apply aggregate_within in H.
  destruct H as [(He & Hp & _ & _) _]. now split.
Qed.

Lemma aggregate_counts_within_witness :
  (num_tcp_sess scenario_counters + num_udp_sess scenario_counters
   + num_icmp_sess scenario_counters <= num_sessions scenario_counters)%nat /\
  (num_external scenario_counters <= num_sessions scenario_counters)%nat.
Proof.
  apply (aggregate_counts_within scenario (Mac "aa:aa:aa:aa:aa:aa") 1024).
  vm_compute. reflexivity.
Defined.

(** *** The destination histogram *)

Lemma extract_features_body_destination (capture_source : source)
  (max_port : Z) (c c' : counters) (entry : session_key * session) :
  extract_features_body capture_source max_port c entry = Ok c' ->
  list_sum (num_destination_sess c')
  = (list_sum (num_destination_sess c)
     + b2n (from_capture_source capture_source entry
            && destination_port_below max_port entry))%nat.
Proof.
  intro H. apply extract_features_body_inv in H.
  destruct H as (a1 & p1 & a2 & p2 & hex & c1 & _ & Hk2 & Hhex & Hout & Hin).
  unfold from_capture_source, destination_port_below, destination_port.
  rewrite Hhex, Hk2. cbn [bind snd].
  assert (E : num_destination_sess c' = num_destination_sess c1).
  { destruct (mac_is (snd (extract_macs hex)) capture_source).
    - apply count_incoming_inv in Hin. now destruct Hin as (pr & _ & ->).
    - now injection Hin as <-. }
  rewrite E.
  destruct (mac_is (fst (extract_macs hex)) capture_source).
  - apply count_outgoing_inv in Hout.
    destruct Hout as (pr & tcp & udp & icmp & src & dst
                      & _ & _ & _ & _ & _ & Hd & ->).
    apply bump_port_ok in Hd. destruct Hd as (p & -> & Hsum & _).
    cbn -[list_sum]. exact Hsum.
  - injection Hout as <-. cbn -[list_sum]. lia.
Qed.

Lemma aggregate_loop_destination (capture_source : source) (max_port : Z)
  (entries : session_dict) (c c' : counters) :
  for_each (extract_features_body capture_source max_port) entries c = Ok c' ->
  list_sum (num_destination_sess c')
  = (list_sum (num_destination_sess c)
     + List.length
         (filter (fun e => from_capture_source capture_source e
                           && destination_port_below max_port e)
            entries))%nat.
Proof.
  revert c. induction entries as [| entry entries IH]; intros c H; simpl in H.
  - injection H as <-. simpl. lia.
  - apply bind_ok in H. destruct H as (c1 & Hbody & H).
    apply extract_features_body_destination in Hbody.
    rewrite (IH c1 H), Hbody. simpl filter.
    destruct (from_capture_source capture_source entry
              && destination_port_below max_port entry); simpl; lia.
Qed.

(** X14. When the loop returns, the destination-port histogram sums to
    the number of sessions sent by the capture source to a port below
    [max_port]. *)
Theorem destination_histogram_total (session_dict0 : session_dict)
  (capture_source : source) (max_port : Z) (c : counters) :
  aggregate session_dict0 capture_source max_port = Ok c ->
  list_sum (num_destination_sess c)
  = List.length
      (filter (fun e => from_capture_source capture_source e
                        && destination_port_below max_port e)
         session_dict0).
Proof.
  unfold aggregate. intro H. apply aggregate_loop_destination in H.
  rewrite H. unfold initial_counters, zeros. cbn -[list_sum].
  assert (E : list_sum (repeat 0%nat (Z.to_nat max_port)) = 0%nat)
    by (induction (Z.to_nat max_port); simpl; auto).
  rewrite E. reflexivity.
Qed.

Lemma destination_histogram_total_witness :
  list_sum (num_destination_sess scenario_counters)
  = List.length
      (filter (fun e => from_capture_source (Mac "aa:aa:aa:aa:aa:aa") e
                        && destination_port_below 1024 e) scenario).
Proof.
  apply (destination_histogram_total scenario (Mac "aa:aa:aa:aa:aa:aa") 1024).
  vm_compute. reflexivity.
Defined.

(** *** No session from the capture source *)

Lemma filter_none {A : Type} (f : A -> bool) (l : list A) :
  (forall x, In x l -> f x = false) -> filter f l = [].
Proof.
  induction l as [| x l IH]; simpl; intro H; [reflexivity |].
  rewrite (H x (or_introl eq_refl)). apply IH.
  intros y Hy. apply H. now right.
Qed.

Lemma sum_zero_repeat (l : list nat) :
  list_sum l = 0%nat -> l = repeat 0%nat (List.length l).
Proof.
  induction l as [| n l IH]; simpl; intro H; [reflexivity |].
  assert (n = 0%nat) by lia. subst n. f_equal. apply IH. lia.
Qed.

(** X15. When no session of the mapping is sent by the capture source,
    the division guard applies and the returned vector is all zeros. *)
Theorem extract_features_no_session (session_dict0 : session_dict)
  (given : option source) (max_port : Z)
  (v : list Q) (capture_source : source) (peers : list string) :
  extract_features session_dict0 given max_port
  = Ok (v, capture_source, peers) ->
  (forall e, In e session_dict0 ->
     from_capture_source capture_source e = false) ->
  v = repeat 0%Q (2 * Z.to_nat max_port + 4).
Proof.
  unfold extract_features. intros H Hnone.
  apply bind_ok in H. destruct H as (cs & _ & H).
  apply bind_ok in H. destruct H as (c & Hagg & H).
  injection H as <- -> _.
  pose proof (aggregate_within _ _ _ _ Hagg)
    as [(He & Hp & Hs & Hd) [Hsl Hdl]].
  unfold aggregate in Hagg. apply aggregate_loop_ok in Hagg.
  destruct Hagg as (_ & Hnum & _).
  rewrite (filter_none _ _ Hnone) in Hnum. simpl in Hnum.
  unfold normalise. rewrite Hnum in *.
  rewrite (sum_zero_repeat (num_source_sess c)) by lia.
  rewrite (sum_zero_repeat (num_destination_sess c)) by lia.
  rewrite Hsl, Hdl.
  replace (num_external c) with 0%nat by lia.
  replace (num_tcp_sess c) with 0%nat by lia.
  replace (num_udp_sess c) with 0%nat by lia.
  replace (num_icmp_sess c) with 0%nat by lia.
  cbn [Nat.eqb].
  rewrite <- repeat_app, map_repeat.
  replace (2 * Z.to_nat max_port + 4)%nat
    with ((Z.to_nat max_port + Z.to_nat max_port) + 4)%nat by lia.
  rewrite (repeat_app _ _ 4). reflexivity.
Qed.

Lemma extract_features_no_session_witness :
  extract_features scenario (Some (Mac "ee:ee:ee:ee:ee:ee")) 3
  = Ok (repeat 0%Q 10, Mac "ee:ee:ee:ee:ee:ee", []) /\
  repeat 0%Q 10 = repeat 0%Q (2 * Z.to_nat 3 + 4).
Proof.
  split; [reflexivity |].
  apply (extract_features_no_session scenario
           (Some (Mac "ee:ee:ee:ee:ee:ee")) 3 _
           (Mac "ee:ee:ee:ee:ee:ee") []).
  - reflexivity.
  - intros e [<- | [<- | []]]; reflexivity.
Defined.

(** *** The peer list *)

Lemma nodup_keys_incr (d : dict string nat) (k : string) :
  NoDup (keys d) -> NoDup (keys (incr d k)).
Proof.
  intro H. destruct (keys_incr_cases d k) as [[_ ->] | [Hout ->]];
    [exact H |].
  apply NoDup_app; [exact H | repeat constructor; intros [] |].
  intros x Hx [<- | []]. contradiction.
Qed.

Lemma nodup_keys_tally (l : list string) (d : dict string nat) :
  NoDup (keys d) -> NoDup (keys (fold_left incr l d)).
Proof.
  revert d. induction l as [| x l IH]; intros d H; simpl; [exact H |].
  apply IH. now apply nodup_keys_incr.
Qed.

Lemma endpoint_address_unpacked (endpoint address port : string) :
  unpack2 (Py.split ":" endpoint) = Ok (address, port) ->
  endpoint_address endpoint = Ok address.
Proof. unfold endpoint_address. now intros ->. Qed.

Lemma extract_features_body_peers (capture_source : source) (max_port : Z)
  (c c' : counters) (entry : session_key * session) :
  extract_features_body capture_source max_port c entry = Ok c' ->
  other_ips c' = fold_left incr (peers_of capture_source entry) (other_ips c).
Proof.
  intro H. apply extract_features_body_inv in H.
  destruct H as (a1 & p1 & a2 & p2 & hex & c1 & Hk1 & Hk2 & Hhex & Hout & Hin).
  unfold peers_of, from_capture_source, to_capture_source, private_address.
  rewrite Hhex, (endpoint_address_unpacked _ _ _ Hk1),
    (endpoint_address_unpacked _ _ _ Hk2).
  rewrite fold_left_app.
  assert (E1 : other_ips c1
               = fold_left incr
                   (if mac_is (fst (extract_macs hex)) capture_source
                    then match is_private (AStr a2) with
                         | Ok true => [a2]
                         | _ => []
                         end
                    else []) (other_ips c)).
  { destruct (mac_is (fst (extract_macs hex)) capture_source).
    - apply count_outgoing_inv in Hout.
      destruct Hout as (pr & tcp & udp & icmp & src & dst
                        & -> & _ & _ & _ & _ & _ & ->).
      now destruct pr.
    - now injection Hout as <-. }
  rewrite <- E1.
  destruct (mac_is (snd (extract_macs hex)) capture_source).
  - apply count_incoming_inv in Hin. destruct Hin as (pr & -> & ->).
    now destruct pr.
  - now injection Hin as <-.
Qed.

Lemma aggregate_loop_peers (capture_source : source) (max_port : Z)
  (entries : session_dict) (c c' : counters) :
  for_each (extract_features_body capture_source max_port) entries c = Ok c' ->
  other_ips c'
  = fold_left incr (flat_map (peers_of capture_source) entries) (other_ips c).
Proof.
  revert c. induction entries as [| entry entries IH]; intros c H; simpl in H.
  - now injection H as <-.
  - apply bind_ok in H. destruct H as (c1 & Hbody & H).
    apply extract_features_body_peers in Hbody.
    simpl. now rewrite fold_left_app, (IH c1 H), Hbody.
Qed.

Lemma private_address_private (endpoint p : string) :
  In p (private_address endpoint) -> is_private (AStr p) = Ok true.
Proof.
  unfold private_address.
  destruct (endpoint_address endpoint) as [address |]; [| intros []].
  destruct (is_private (AStr address)) as [[|] |] eqn:E; intro H;
    [| contradiction | contradiction].
  destruct H as [<- | []]. exact E.
Qed.

(** X16. The returned peer list has no repetition, holds exactly the
    private addresses met at the other end of a session the capture
    source sent (the address of [key[1]]) or received (the address of
    [key[0]]), and so holds private addresses only. *)
Theorem extract_features_peers (session_dict0 : session_dict)
  (given : option source) (max_port : Z)
  (v : list Q) (capture_source : source) (peers : list string) :
  extract_features session_dict0 given max_port
  = Ok (v, capture_source, peers) ->
  NoDup peers /\
  (forall p, In p peers
             <-> In p (flat_map (peers_of capture_source) session_dict0)) /\
  (forall p, In p peers -> is_private (AStr p) = Ok true).
Proof.
  unfold extract_features. intro H.
  apply bind_ok in H. destruct H as (cs & _ & H).
  apply bind_ok in H. destruct H as (c & Hagg & H).
  injection H as _ -> <-.
  unfold aggregate in Hagg. apply aggregate_loop_peers in Hagg.
  simpl in Hagg. rewrite Hagg.
  assert (Hiff : forall p,
             In p (keys (fold_left incr
                           (flat_map (peers_of capture_source) session_dict0)
                           []))
             <-> In p (flat_map (peers_of capture_source) session_dict0)).
  { intro p. rewrite in_keys_tally. simpl. tauto. }
  refine (conj _ (conj Hiff _)).
  - apply nodup_keys_tally. constructor.
  - intros p Hp. apply Hiff in Hp. apply in_flat_map in Hp.
    destruct Hp as (e & _ & Hp). unfold peers_of in Hp.
    apply in_app_or in Hp. destruct Hp as [Hp | Hp].
    + destruct (from_capture_source capture_source e); [| contradiction].
      now apply private_address_private in Hp.
    + destruct (to_capture_source capture_source e); [| contradiction].
      now apply private_address_private in Hp.
Qed.

Lemma extract_features_peers_witness :
  NoDup ["192.168.1.5"] /\
  (forall p, In p ["192.168.1.5"]
             <-> In p (flat_map (peers_of (Mac "bb:bb:bb:bb:bb:bb"))
                         tied_sessions)) /\
  (forall p, In p ["192.168.1.5"] -> is_private (AStr p) = Ok true).
Proof.
  eapply (extract_features_peers tied_sessions None 64).
  vm_compute. reflexivity.
Defined.

(** *** What a returning call tells about the mapping *)

Lemma extract_features_body_keyed (capture_source : source) (max_port : Z)
  (c c' : counters) (entry : session_key * session) :
  extract_features_body capture_source max_port c entry = Ok c' ->
  keyed entry = true.
Proof.
  intro H. apply extract_features_body_inv in H.
  destruct H as (a1 & p1 & a2 & p2 & hex & c1 & Hk1 & Hk2 & Hhex & _).
  unfold keyed.
  now rewrite Hhex, (endpoint_address_unpacked _ _ _ Hk1),
    (endpoint_address_unpacked _ _ _ Hk2).
Qed.

(** X17. [extract_features] returns only if every endpoint of every key
    is one [address:port] with a single colon and every session has a
    first packet with a second component, whether or not the session
    involves the capture source. *)
Theorem extract_features_needs_keyed (session_dict0 : session_dict)
  (given : option source) (max_port : Z) :
  returns (extract_features session_dict0 given max_port) = true ->
  forallb keyed session_dict0 = true.
Proof.
  unfold extract_features.
  destruct (resolve session_dict0 given) as [cs |]; [| discriminate].
  cbn [bind]. unfold aggregate.
  generalize (initial_counters max_port) as c.
  induction session_dict0 as [| entry entries IH]; intros c H;
    [reflexivity |].
  simpl in H.
  destruct (extract_features_body cs max_port c entry) as [c1 |] eqn:Hbody;
    [| discriminate H].
  simpl. rewrite (extract_features_body_keyed _ _ _ _ _ Hbody). simpl.
  apply (IH c1). exact H.
Qed.

Lemma extract_features_needs_keyed_witness :
  forallb keyed scenario = true /\
  returns
    (extract_features
       [(("fe80::1:80", "192.168.1.10:4000"),
         [Pair 0%Z (header "bbbbbbbbbbbb" "aaaaaaaaaaaa" "06")])]
       (Some (Mac "ee:ee:ee:ee:ee:ee")) 1024) = false.
Proof.
  split.
  - apply (extract_features_needs_keyed scenario None 1024).
    vm_compute. reflexivity.
  - destruct (returns
                (extract_features
                   [(("fe80::1:80", "192.168.1.10:4000"),
                     [Pair 0%Z (header "bbbbbbbbbbbb" "aaaaaaaaaaaa" "06")])]
                   (Some (Mac "ee:ee:ee:ee:ee:ee")) 1024)) eqn:E;
      [| reflexivity].
    apply extract_features_needs_keyed in E. discriminate E.
Defined.

(** ** The protocol field *)

Lemma substring_skip (pre s : string) (m : nat) :
  substring (String.length pre) m (pre ++ s) = substring 0 m s.
Proof. induction pre as [| c pre IH]; simpl; [reflexivity | exact IH]. Qed.

Lemma substring_take (mid rest : string) :
  substring 0 (String.length mid) (mid ++ rest) = mid.
Proof.
  induction mid as [| c mid IH]; simpl.
  - apply substring_none.
  - now rewrite IH.
Qed.

(** X18. In a session whose first header carries the two characters
    [protocol] at offset 46, [is_protocol] answers whether its argument
    is that pair of characters; what follows in the header and the later
    packets are not looked at. *)
Theorem is_protocol_field (ts : timestamp) (pre protocol rest : string)
  (more : session) (p : string) :
  String.length pre = 46%nat -> String.length protocol = 2%nat ->
  is_protocol (Pair ts (pre ++ protocol ++ rest) :: more) p
  = Ok (String.eqb p protocol).
Proof.
  intros Hpre Hproto. unfold is_protocol, extract_protocol. simpl.
  unfold Py.slice.
  change (48 - 46)%nat with 2%nat. rewrite <- Hpre, <- Hproto.
  rewrite substring_skip, substring_take.
  destruct (String.eqb p protocol); reflexivity.
Qed.

Lemma is_protocol_field_witness :
  is_protocol
    [Pair 0%Z ("bbbbbbbbbbbbaaaaaaaaaaaa0800450000280000400040"
               ++ "11" ++ "0000c0a80105")] "11" = Ok true.
Proof.
  apply (is_protocol_field 0%Z
           "bbbbbbbbbbbbaaaaaaaaaaaa0800450000280000400040" "11"
           "0000c0a80105" [] "11"); reflexivity.
Defined.

(** ** Only first packets are read *)

Lemma item_first_packet {A : Type} (l : list A) :
  Py.item (firstn 1 l) 0 = Py.item l 0.
Proof. destruct l; reflexivity. Qed.

Lemma first_header_first_packet (sess : session) :
  first_header (firstn 1 sess) = first_header sess.
Proof. unfold first_header. now rewrite item_first_packet. Qed.

Lemma is_protocol_first_packet (sess : session) (p : string) :
  is_protocol (firstn 1 sess) p = is_protocol sess p.
Proof.
  unfold is_protocol, extract_protocol. now rewrite item_first_packet.
Qed.

Lemma dict_get_first_packets (sessions : session_dict) (key : session_key) :
  dict_get (first_packets sessions) key
  = do sess <- dict_get sessions key; Ok (firstn 1 sess).
Proof.
  induction sessions as [| [k v] d IH]; simpl; [reflexivity |].
  destruct (key_eqb k key); [reflexivity | exact IH].
Qed.

Lemma keys_first_packets (sessions : session_dict) :
  keys (first_packets sessions) = keys sessions.
Proof.
  unfold keys, first_packets. rewrite map_map. reflexivity.
Qed.

Lemma get_source_body_first_packets (sessions : session_dict) (t : tallies)
  (key : session_key) :
  get_source_body (first_packets sessions) t key
  = get_source_body sessions t key.
Proof.
  unfold get_source_body. rewrite dict_get_first_packets.
  destruct (dict_get sessions key) as [sess |]; [| reflexivity].
  cbn [bind]. now rewrite item_first_packet.
Qed.

Lemma for_each_ext {A S : Type} (f g : S -> A -> result S) (l : list A)
  (st : S) :
  (forall st x, f st x = g st x) -> for_each f l st = for_each g l st.
Proof.
  intro H. revert st. induction l as [| x l IH]; intro st; simpl;
    [reflexivity |].
  rewrite H. destruct (g st x); simpl; [apply IH | reflexivity].
Qed.

Lemma get_source_first_packets (sessions : session_dict) :
  get_source (first_packets sessions) = get_source sessions.
Proof.
  unfold get_source. rewrite keys_first_packets.
  rewrite (for_each_ext _ (get_source_body sessions))
    by apply get_source_body_first_packets.
  unfold first_packets. now rewrite length_map.
Qed.

Lemma extract_features_body_first_packet (capture_source : source)
  (max_port : Z) (c : counters) (entry : session_key * session) :
  extract_features_body capture_source max_port c
    (fst entry, firstn 1 (snd entry))
  = extract_features_body capture_source max_port c entry.
Proof.
  destruct entry as [key sess]. unfold extract_features_body, count_outgoing.
  cbn [fst snd]. now rewrite item_first_packet, !is_protocol_first_packet.
Qed.

Lemma aggregate_first_packets (session_dict0 : session_dict)
  (capture_source : source) (max_port : Z) :
  aggregate (first_packets session_dict0) capture_source max_port
  = aggregate session_dict0 capture_source max_port.
Proof.
  unfold aggregate, first_packets.
  generalize (initial_counters max_port) as c.
  induction session_dict0 as [| entry entries IH]; intro c;
    cbn [map for_each]; [reflexivity |].
  rewrite extract_features_body_first_packet.
  destruct (extract_features_body capture_source max_port c entry);
    cbn [bind]; [apply IH | reflexivity].
Qed.

(** X19. Only the first packet of each session is ever read: cutting
    every session down to its first packet changes neither the capture
    source found by [get_source] nor anything [extract_features]
    returns or raises. *)
Theorem first_packets_suffice (session_dict0 : session_dict)
  (given : option source) (max_port : Z) :
  get_source (first_packets session_dict0) = get_source session_dict0 /\
  extract_features (first_packets session_dict0) given max_port
  = extract_features session_dict0 given max_port.
Proof.
  split; [apply get_source_first_packets |].
  unfold extract_features, resolve.
  rewrite get_source_first_packets.
  destruct (match given with
            | Some s => Ok s
            | None => get_source session_dict0
            end) as [cs |]; [| reflexivity].
  cbn [bind]. now rewrite aggregate_first_packets.
Qed.

(** ** What each bin counts *)

Lemma nth_bump_nth (j i : nat) (l : list nat) :
  (j < List.length l)%nat ->
  nth i (bump_nth j l) 0%nat = (nth i l 0 + b2n (i =? j))%nat.
Proof.
  revert j i. induction l as [| n l IH]; intros [| j] [| i]; simpl;
    intro H; try lia.
  apply IH. lia.
Qed.

Lemma list_incr_nth (l l' : list nat) (max_port p : Z) (i : nat) :
  List.length l = Z.to_nat max_port ->
  list_incr l p = Ok l' ->
  nth i l' 0%nat
  = (nth i l 0 + b2n (bin_index max_port p =? Z.of_nat i)%Z)%nat.
Proof.
  intros Hlen. unfold list_incr, bin_index. rewrite Hlen.
  set (j := if (p <? 0)%Z then (p + Z.of_nat (Z.to_nat max_port))%Z else p).
  destruct ((0 <=? j)%Z && (j <? Z.of_nat (Z.to_nat max_port))%Z) eqn:E;
    [| discriminate].
  apply andb_prop in E. destruct E as [E1 E2].
  apply Z.leb_le in E1. apply Z.ltb_lt in E2.
  intro H. injection H as <-.
  rewrite nth_bump_nth by lia. f_equal. f_equal.
  destruct (Nat.eqb_spec i (Z.to_nat j)), (Z.eqb_spec j (Z.of_nat i));
    try reflexivity; lia.
Qed.

Lemma bump_port_nth (hist hist' : list nat) (port : string) (max_port : Z)
  (i : nat) :
  List.length hist = Z.to_nat max_port ->
  bump_port hist port max_port = Ok hist' ->
  nth i hist' 0%nat
  = (nth i hist 0 + b2n (binned_at max_port i (Py.int 10 port)))%nat.
Proof.
  intros Hlen H. unfold bump_port in H.
  destruct (Py.int 10 port) as [p |]; [| discriminate H].
  cbn [bind] in H. unfold binned_at.
  destruct (p <? max_port)%Z.
  - now apply list_incr_nth.
  - injection H as <-. simpl. lia.
Qed.

Lemma extract_features_body_bins (capture_source : source) (max_port : Z)
  (c c' : counters) (entry : session_key * session) (i : nat) :
  sized max_port c ->
  extract_features_body capture_source max_port c entry = Ok c' ->
  nth i (num_source_sess c') 0%nat
  = (nth i (num_source_sess c) 0
     + b2n (from_capture_source capture_source entry
            && binned_at max_port i (source_port entry)))%nat /\
  nth i (num_destination_sess c') 0%nat
  = (nth i (num_destination_sess c) 0
     + b2n (from_capture_source capture_source entry
            && binned_at max_port i (destination_port entry)))%nat.
Proof.
  intros [Hsl Hdl] H. apply extract_features_body_inv in H.
  destruct H as (a1 & p1 & a2 & p2 & hex & c1 & Hk1 & Hk2 & Hhex & Hout & Hin).
  unfold from_capture_source, source_port, destination_port.
  rewrite Hhex, Hk1, Hk2. cbn [bind snd].
  assert (E : num_source_sess c' = num_source_sess c1 /\
              num_destination_sess c' = num_destination_sess c1).
  { destruct (mac_is (snd (extract_macs hex)) capture_source).
    - apply count_incoming_inv in Hin. destruct Hin as (pr & _ & ->).
      now split.
    - injection Hin as <-. now split. }
  destruct E as [-> ->].
  destruct (mac_is (fst (extract_macs hex)) capture_source).
  - apply count_outgoing_inv in Hout.
    destruct Hout as (pr & tcp & udp & icmp & src & dst
                      & _ & _ & _ & _ & Hs & Hd & ->).
    cbn [num_source_sess num_destination_sess andb].
    split; [now apply bump_port_nth | now apply bump_port_nth].
  - injection Hout as <-. simpl. lia.
Qed.

Lemma aggregate_loop_bins (capture_source : source) (max_port : Z)
  (entries : session_dict) (c c' : counters) (i : nat) :
  sized max_port c ->
  for_each (extract_features_body capture_source max_port) entries c = Ok c' ->
  nth i (num_source_sess c') 0%nat
  = (nth i (num_source_sess c) 0
     + List.length
         (filter (fun e => from_capture_source capture_source e
                           && binned_at max_port i (source_port e))
            entries))%nat /\
  nth i (num_destination_sess c') 0%nat
  = (nth i (num_destination_sess c) 0
     + List.length
         (filter (fun e => from_capture_source capture_source e
                           && binned_at max_port i (destination_port e))
            entries))%nat.
Proof.
  revert c. induction entries as [| entry entries IH]; intros c Hc H;
    simpl in H.
  - injection H as <-. simpl. lia.
  - apply bind_ok in H. destruct H as (c1 & Hbody & H).
    pose proof (extract_features_body_bins _ _ _ _ _ i Hc Hbody) as [Es Ed].
    apply extract_features_body_within in Hbody.
    destruct Hbody as (_ & Hs & Hd).
    assert (Hc1 : sized max_port c1)
      by (destruct Hc; split; congruence).
    destruct (IH c1 Hc1 H) as [IHs IHd].
    rewrite IHs, IHd, Es, Ed. simpl filter.
    destruct (from_capture_source capture_source entry);
      destruct (binned_at max_port i (source_port entry));
      destruct (binned_at max_port i (destination_port entry));
      simpl; lia.
Qed.

(** X20. When the loop returns, bin [i] of the source histogram holds
    the number of sessions sent by the capture source whose source port
    is below [max_port] and indexes bin [i], and bin [i] of the
    destination histogram the same for destination ports.  A negative
    port indexes from the end of the histogram. *)
Theorem histogram_bins (session_dict0 : session_dict)
  (capture_source : source) (max_port : Z) (c : counters) (i : nat) :
  aggregate session_dict0 capture_source max_port = Ok c ->
  nth i (num_source_sess c) 0%nat
  = List.length
      (filter (fun e => from_capture_source capture_source e
                        && binned_at max_port i (source_port e))
         session_dict0) /\
  nth i (num_destination_sess c) 0%nat
  = List.length
      (filter (fun e => from_capture_source capture_source e
                        && binned_at max_port i (destination_port e))
         session_dict0).
Proof.
  unfold aggregate. intro H.
  apply (aggregate_loop_bins _ _ _ _ _ i) in H.
  - unfold initial_counters, zeros in H.
    cbn [num_source_sess num_destination_sess] in H.
    rewrite nth_repeat in H. exact H.
  - unfold sized, initial_counters, zeros. simpl.
    now rewrite repeat_length.
Qed.

Lemma histogram_bins_witness :
  nth 80 (num_source_sess scenario_counters) 0%nat
  = List.length
      (filter (fun e => from_capture_source (Mac "aa:aa:aa:aa:aa:aa") e
                        && binned_at 1024 80 (source_port e)) scenario) /\
  nth 80 (num_destination_sess scenario_counters) 0%nat
  = List.length
      (filter (fun e => from_capture_source (Mac "aa:aa:aa:aa:aa:aa") e
                        && binned_at 1024 80 (destination_port e)) scenario).
Proof.
  apply (histogram_bins scenario (Mac "aa:aa:aa:aa:aa:aa") 1024).
  vm_compute. reflexivity.
Defined.

(** A source port written "-1" lands in the last bin. *)
Lemma negative_port_example :
  exists c,
    aggregate
      [(("192.168.1.5:-1", "192.168.1.10:53"),
        [Pair 0%Z (header "bbbbbbbbbbbb" "aaaaaaaaaaaa" "11")])]
      (Mac "aa:aa:aa:aa:aa:aa") 4 = Ok c /\
    num_source_sess c = [0; 0; 0; 1]%nat.
Proof. eexists. split; reflexivity. Qed.

(** * The store-passing functions against the value-level ones *)

Section StoreSteps.

Local Open Scope nat_scope.

Variables (s : Imp.store) (locals : Imp.store).

Lemma bind_done {A B : Type} (m : Imp.run A) (k : A -> Imp.run B) (st st' : Imp.store)
  (a : A) :
  m st = (Imp.Done a, st') -> Imp.bind m k st = k a st'.
Proof. unfold Imp.bind. now intros ->. Qed.

Lemma bind_lift {A B : Type} (r : result A) (k : A -> Imp.run B) (st : Imp.store) :
  Imp.bind (Imp.lift r) k st
  = match r with
    | Ok a => k a st
    | Raise e => (Imp.Fail (Imp.Python e), st)
    end.
Proof. unfold Imp.bind, Imp.lift. now destruct r. Qed.

Lemma bind_ret {A B : Type} (a : A) (k : A -> Imp.run B) (st : Imp.store) :
  Imp.bind (Imp.ret a) k st = k a st.
Proof. reflexivity. Qed.

Lemma bind_assoc {A B C : Type} (m : Imp.run A) (k : A -> Imp.run B)
  (k' : B -> Imp.run C) (st : Imp.store) :
  Imp.bind (Imp.bind m k) k' st
  = Imp.bind m (fun a => Imp.bind (k a) k') st.
Proof.
  unfold Imp.bind. destruct (m st) as [[a | f] st']; reflexivity.
Qed.

Lemma nth_error_local (j : nat) :
  nth_error (s ++ locals) (List.length s + j) = nth_error locals j.
Proof.
  rewrite nth_error_app2 by lia. f_equal. lia.
Qed.

Lemma nth_error_outer (r : Imp.ref) (o : Imp.object) :
  nth_error s r = Some o -> nth_error (s ++ locals) r = Some o.
Proof.
  intro H. rewrite nth_error_app1; [exact H |].
  apply nth_error_Some. congruence.
Qed.

Lemma replace_local (j : nat) (o : Imp.object) :
  Imp.replace (List.length s + j) o (s ++ locals) = s ++ Imp.replace j o locals.
Proof.
  induction s as [| x s' IH]; simpl; [reflexivity | now rewrite IH].
Qed.

Lemma alloc_local (o : Imp.object) :
  Imp.alloc o (s ++ locals)
  = (Imp.Done (List.length s + List.length locals)%nat, s ++ (locals ++ [o])).
Proof. unfold Imp.alloc. now rewrite length_app, app_assoc. Qed.

Lemma mapping_of_outer (r : Imp.ref) (d : session_dict) :
  nth_error s r = Some (Imp.Mapping d) ->
  Imp.mapping_of r (s ++ locals) = (Imp.Done d, s ++ locals).
Proof.
  intro H. unfold Imp.mapping_of, Imp.bind, Imp.fetch.
  now rewrite (nth_error_outer _ _ H).
Qed.

Lemma len_outer (r : Imp.ref) (d : session_dict) :
  nth_error s r = Some (Imp.Mapping d) ->
  Imp.len r (s ++ locals) = (Imp.Done (List.length d), s ++ locals).
Proof.
  intro H. unfold Imp.len.
  now rewrite (bind_done _ _ _ _ _ (mapping_of_outer _ _ H)).
Qed.

Lemma entry_at_outer (r : Imp.ref) (d : session_dict) (i : nat)
  (entry : session_key * session) :
  nth_error s r = Some (Imp.Mapping d) -> nth_error d i = Some entry ->
  Imp.entry_at r (List.length d) i (s ++ locals) = (Imp.Done entry, s ++ locals).
Proof.
  intros H Hi. unfold Imp.entry_at.
  rewrite (bind_done _ _ _ _ _ (mapping_of_outer _ _ H)).
  now rewrite Nat.eqb_refl, Hi.
Qed.

Lemma counts_of_local (j : nat) (d : dict string nat) :
  nth_error locals j = Some (Imp.Counts d) ->
  Imp.counts_of (List.length s + j) (s ++ locals) = (Imp.Done d, s ++ locals).
Proof.
  intro H. unfold Imp.counts_of, Imp.bind, Imp.fetch.
  now rewrite nth_error_local, H.
Qed.

Lemma ints_of_local (j : nat) (l : list nat) :
  nth_error locals j = Some (Imp.Ints l) ->
  Imp.ints_of (List.length s + j) (s ++ locals) = (Imp.Done l, s ++ locals).
Proof.
  intro H. unfold Imp.ints_of, Imp.bind, Imp.fetch.
  now rewrite nth_error_local, H.
Qed.

Lemma bump_local (j : nat) (d : dict string nat) (k : string) :
  nth_error locals j = Some (Imp.Counts d) ->
  Imp.bump (List.length s + j) k (s ++ locals)
  = (Imp.Done tt, s ++ Imp.replace j (Imp.Counts (incr d k)) locals).
Proof.
  intro H. unfold Imp.bump.
  rewrite (bind_done _ _ _ _ _ (counts_of_local _ _ H)).
  unfold Imp.save. now rewrite replace_local.
Qed.

Lemma read_default_local (j : nat) (d : dict string nat) (k : string) :
  nth_error locals j = Some (Imp.Counts d) ->
  Imp.read_default (List.length s + j) k (s ++ locals)
  = (Imp.Done (count_of d k), s ++ Imp.replace j (Imp.Counts (Imp.touch d k)) locals).
Proof.
  intro H. unfold Imp.read_default.
  rewrite (bind_done _ _ _ _ _ (counts_of_local _ _ H)).
  unfold Imp.bind, Imp.save, Imp.ret. now rewrite replace_local.
Qed.

End StoreSteps.

Section GetSourceRefines.

Local Open Scope nat_scope.

Variables (s : Imp.store) (sessions : Imp.ref) (d : session_dict).
Hypothesis Hsessions : nth_error s sessions = Some (Imp.Mapping d).

Lemma get_source_turn_refines (t : tallies) (i : nat)
  (entry : session_key * session) :
  nth_error d i = Some entry ->
  Imp.get_source_turn sessions (List.length s + 0) (List.length s + 1)
    (List.length s + 2) (List.length s + 3) (List.length s + 4)
    (List.length d) i tt (s ++ Imp.tally_objects t)
  = match get_source_body d t (fst entry) with
    | Ok t' => (Imp.Done tt, s ++ Imp.tally_objects t')
    | Raise e => (Imp.Fail (Imp.Python e), s ++ Imp.tally_objects t)
    end.
Proof.
  intro Hi. unfold Imp.get_source_turn, get_source_body.
  erewrite bind_done by (eapply entry_at_outer; eassumption).
  cbv zeta.
  erewrite bind_done by (eapply mapping_of_outer; eassumption).
  rewrite bind_lift.
  destruct (dict_get d (fst entry)) as [sess | e]; cbn [bind];
    [| reflexivity].
  rewrite bind_lift.
  destruct (Py.item sess 0) as [pkt | e]; cbn [bind]; [| reflexivity].
  rewrite bind_lift.
  destruct (packet_item1 pkt) as [first_packet | e]; cbn [bind];
    [| reflexivity].
  destruct (extract_macs first_packet) as [source_mac destination_mac].
  rewrite bind_lift.
  destruct (and_then _ _) as [[|] | e]; cbn [bind]; try reflexivity.
  unfold Imp.tally_objects.
  repeat (erewrite bind_done by (eapply bump_local; reflexivity);
          cbn [Imp.replace]).
  erewrite bump_local by reflexivity.
  reflexivity.
Qed.

Lemma get_source_loop_refines (todo i : nat) (t : tallies) :
  i + todo = List.length d ->
  exists t' : tallies,
    Imp.for_range todo i
      (Imp.get_source_turn sessions (List.length s + 0) (List.length s + 1)
         (List.length s + 2) (List.length s + 3) (List.length s + 4)
         (List.length d)) tt (s ++ Imp.tally_objects t)
    = (match for_each (get_source_body d) (skipn i (keys d)) t with
       | Ok _ => Imp.Done tt
       | Raise e => Imp.Fail (Imp.Python e)
       end, s ++ Imp.tally_objects t') /\
    (forall t'', for_each (get_source_body d) (skipn i (keys d)) t = Ok t'' ->
                 t' = t'').
Proof.
  revert i t. induction todo as [| todo IH]; intros i t Hlen.
  - exists t. rewrite skipn_all2 by (unfold keys; rewrite length_map; lia).
    simpl. split; [reflexivity | now intros t'' [= ->]].
  - assert (Hi : exists entry, nth_error d i = Some entry).
    { destruct (nth_error d i) as [entry |] eqn:E; [eauto |].
      apply nth_error_None in E. lia. }
    destruct Hi as [entry Hi].
    assert (Hskip : skipn i (keys d) = fst entry :: skipn (S i) (keys d)).
    { unfold keys. clear - Hi. revert i Hi.
      induction d as [| x l IHl]; intros [| i] Hi; simpl in *;
        try discriminate.
      - now injection Hi as ->.
      - now apply IHl. }
    rewrite Hskip. cbn [Imp.for_range for_each].
    unfold Imp.bind at 1.
    rewrite (get_source_turn_refines t i entry Hi).
    destruct (get_source_body d t (fst entry)) as [t1 | e]; cbn [bind].
    + apply IH. lia.
    + exists t. split; [reflexivity | discriminate].
Qed.

Lemma get_source_refines :
  exists locals : Imp.store,
    Imp.get_source sessions s = (Imp.of_result (get_source d), s ++ locals).
Proof.
  enough (H : exists locals : Imp.store,
             Imp.get_source sessions (s ++ [])
             = (Imp.of_result (get_source d), s ++ locals))
    by now rewrite app_nil_r in H.
  unfold Imp.get_source.
  repeat (rewrite (bind_done _ _ _ _ _ (alloc_local s _ _));
          cbn [List.length app]).
  erewrite bind_done by (eapply len_outer; eassumption).
  destruct (get_source_loop_refines (List.length d) 0 no_tallies eq_refl)
    as (t' & Hloop & Ht').
  change (Imp.tally_objects no_tallies)
    with [Imp.Counts []; Imp.Counts []; Imp.Counts []; Imp.Counts [];
          Imp.Counts []; Imp.Counts []] in Hloop.
  unfold Imp.bind at 1. rewrite Hloop.
  unfold get_source. cbn [skipn] in *.
  destruct (for_each (get_source_body d) (keys d) no_tallies) as [t |];
    cbn [bind Imp.of_result]; [| eauto].
  specialize (Ht' t eq_refl). subst t'.
  erewrite bind_done by (eapply len_outer; eassumption).
  unfold Imp.tally_objects.
  destruct (List.length d =? 0); [unfold Imp.ret; eauto |].
  erewrite bind_done by (eapply counts_of_local; reflexivity).
  erewrite bind_done by (eapply read_default_local; reflexivity).
  cbn [Imp.replace].
  erewrite bind_done by (eapply read_default_local; reflexivity).
  cbn [Imp.replace Imp.of_result]. unfold Imp.ret. eauto.
Qed.

End GetSourceRefines.

Section ExtractFeaturesRefines.

Local Open Scope nat_scope.

Variables (s : Imp.store) (sessions : Imp.ref) (d : session_dict).
Hypothesis Hsessions : nth_error s sessions = Some (Imp.Mapping d).

Lemma note_peer_local (locals : Imp.store) (other : dict string nat)
  (address : string) :
  nth_error locals 2 = Some (Imp.Counts other) ->
  Imp.note_peer (List.length s + 2) address (s ++ locals)
  = match is_private (AStr address) with
    | Ok true =>
        (Imp.Done tt,
         s ++ Imp.replace 2 (Imp.Counts (incr other address)) locals)
    | Ok false => (Imp.Done tt, s ++ locals)
    | Raise e => (Imp.Fail (Imp.Python e), s ++ locals)
    end.
Proof.
  intro H. unfold Imp.note_peer. rewrite bind_lift.
  destruct (is_private (AStr address)) as [[|] | e]; try reflexivity.
  now apply bump_local.
Qed.

Lemma bump_port_local (locals : Imp.store) (j : nat) (hist : list nat)
  (port : string) (max_port : Z) :
  nth_error locals j = Some (Imp.Ints hist) ->
  Imp.bump_port (List.length s + j) port max_port (s ++ locals)
  = match bump_port hist port max_port with
    | Ok hist' => (Imp.Done tt, s ++ Imp.replace j (Imp.Ints hist') locals)
    | Raise e => (Imp.Fail (Imp.Python e), s ++ locals)
    end.
Proof.
  intro H. unfold Imp.bump_port, bump_port. rewrite bind_lift.
  destruct (Py.int 10 port) as [p | e]; cbn [bind]; [| reflexivity].
  destruct (p <? max_port)%Z.
  - erewrite bind_done by (eapply ints_of_local; eassumption).
    rewrite bind_lift.
    destruct (list_incr hist p) as [hist' | e]; [| reflexivity].
    unfold Imp.save. now rewrite replace_local.
  - unfold Imp.ret. f_equal. f_equal.
    clear - H. revert j H.
    induction locals as [| o l IH]; intros [| j] H; simpl in *;
      try discriminate.
    + now injection H as ->.
    + f_equal. now apply IH.
Qed.

Lemma extract_features_turn_refines (capture_source : source) (max_port : Z)
  (c : counters) (i : nat) (entry : session_key * session)
  (Q : Imp.outcome Imp.scalars * Imp.store -> Prop) :
  nth_error d i = Some entry ->
  (forall sources destinations peers,
     (forall c', extract_features_body capture_source max_port c entry = Ok c'
                 -> Imp.counter_objects c'
                    = [Imp.Ints sources; Imp.Ints destinations;
                       Imp.Counts peers]) ->
     Q (match extract_features_body capture_source max_port c entry with
        | Ok c' => Imp.Done (Imp.scalars_of c')
        | Raise e => Imp.Fail (Imp.Python e)
        end,
        s ++ [Imp.Ints sources; Imp.Ints destinations; Imp.Counts peers])) ->
  Q (Imp.extract_features_turn sessions capture_source max_port
       (List.length s + 0) (List.length s + 1) (List.length s + 2)
       (List.length d) i (Imp.scalars_of c) (s ++ Imp.counter_objects c)).
Proof.
  intros Hi HQ. unfold Imp.extract_features_turn.
  erewrite bind_done by (eapply entry_at_outer; eassumption).
  destruct entry as [key sess].
  unfold extract_features_body, count_outgoing, count_incoming in HQ.
  unfold Imp.counter_objects.
  rewrite bind_lift.
  destruct (unpack2 (Py.split ":" (fst key))) as [[address_1 port_1] | e];
    cbn [bind] in *; [| eapply HQ; discriminate].
  rewrite bind_lift.
  destruct (unpack2 (Py.split ":" (snd key))) as [[address_2 port_2] | e];
    cbn [bind] in *; [| eapply HQ; discriminate].
  rewrite bind_lift.
  destruct (Py.item sess 0) as [pkt | e];
    cbn [bind] in *; [| eapply HQ; discriminate].
  rewrite bind_lift.
  destruct (packet_item1 pkt) as [first_packet | e];
    cbn [bind] in *; [| eapply HQ; discriminate].
  destruct (extract_macs first_packet) as [source_mac destination_mac].
  assert (Hleaf : forall (sc : counters) (st : Imp.store) sources
                         destinations peers,
             st = s ++ [Imp.Ints sources; Imp.Ints destinations;
                        Imp.Counts peers] ->
             Imp.counter_objects sc
             = [Imp.Ints sources; Imp.Ints destinations; Imp.Counts peers] ->
             forall Q' : Imp.outcome Imp.scalars * Imp.store -> Prop,
             (forall sources0 destinations0 peers0,
                 (forall c', (if mac_is destination_mac capture_source
                              then do private_1 <- is_private (AStr address_1);
                                   if private_1
                                   then Ok (mkCounters (num_source_sess sc)
                                              (num_destination_sess sc)
                                              (num_sessions sc)
                                              (num_external sc)
                                              (num_tcp_sess sc)
                                              (num_udp_sess sc)
                                              (num_icmp_sess sc)
                                              (incr (other_ips sc) address_1))
                                   else Ok sc
                              else Ok sc) = Ok c' ->
                             Imp.counter_objects c'
                             = [Imp.Ints sources0; Imp.Ints destinations0;
                                Imp.Counts peers0]) ->
                 Q' (match (if mac_is destination_mac capture_source
                            then do private_1 <- is_private (AStr address_1);
                                 if private_1
                                 then Ok (mkCounters (num_source_sess sc)
                                            (num_destination_sess sc)
                                            (num_sessions sc)
                                            (num_external sc)
                                            (num_tcp_sess sc)
                                            (num_udp_sess sc)
                                            (num_icmp_sess sc)
                                            (incr (other_ips sc) address_1))
                                 else Ok sc
                            else Ok sc) with
                     | Ok c' => Imp.Done (Imp.scalars_of c')
                     | Raise e => Imp.Fail (Imp.Python e)
                     end,
                     s ++ [Imp.Ints sources0; Imp.Ints destinations0;
                           Imp.Counts peers0])) ->
             Q' ((if mac_is destination_mac capture_source
                  then Imp.bind
                         (Imp.note_peer (List.length s + 2) address_1)
                         (fun _ => Imp.ret (Imp.scalars_of sc))
                  else Imp.ret (Imp.scalars_of sc)) st)).
  { intros sc st sources destinations peers -> Hsc Q' HQ'.
    unfold Imp.counter_objects in Hsc. injection Hsc as <- <- <-.
    destruct (mac_is destination_mac capture_source).
    - unfold Imp.bind. erewrite note_peer_local by reflexivity.
      destruct (is_private (AStr address_1)) as [[|] | e];
        cbn [bind Imp.replace] in *;
        eapply HQ'; try discriminate; intros c' [= <-]; reflexivity.
    - eapply HQ'. intros c' [= <-]. reflexivity. }
  destruct (mac_is source_mac capture_source).
  - rewrite bind_assoc.
    unfold Imp.bind at 1. erewrite note_peer_local by reflexivity.
    destruct (is_private (AStr address_2)) as [[|] | e];
      cbn [bind Imp.replace] in *; [| | eapply HQ; discriminate].
    all: rewrite bind_assoc, bind_lift;
      destruct (is_protocol sess "06") as [tcp | e];
      cbn [bind] in *; [| eapply HQ; discriminate].
    all: rewrite bind_assoc, bind_lift;
      destruct (is_protocol sess "11") as [udp | e];
      cbn [bind] in *; [| eapply HQ; discriminate].
    all: rewrite bind_assoc, bind_lift;
      destruct (is_protocol sess "01") as [icmp | e];
      cbn [bind] in *; [| eapply HQ; discriminate].
    all: rewrite bind_assoc; unfold Imp.bind at 1;
      erewrite bump_port_local by reflexivity;
      destruct (bump_port (num_source_sess c) port_1 max_port)
        as [sources | e];
      cbn [bind Imp.replace] in *; [| eapply HQ; discriminate].
    all: rewrite bind_assoc; unfold Imp.bind at 1;
      erewrite bump_port_local by reflexivity;
      destruct (bump_port (num_destination_sess c) port_2 max_port)
        as [destinations | e];
      cbn [bind Imp.replace] in *; [| eapply HQ; discriminate].
    all: rewrite bind_ret.
    all: eapply (Hleaf (mkCounters sources destinations (S (num_sessions c))
                          (add_bool (num_external c)
                             (is_external address_1 address_2))
                          (add_bool (num_tcp_sess c) tcp)
                          (add_bool (num_udp_sess c) udp)
                          (add_bool (num_icmp_sess c) icmp) _));
      [reflexivity | reflexivity | exact HQ].
  - rewrite bind_ret.
    eapply (Hleaf c); [reflexivity | reflexivity | exact HQ].
Qed.

Lemma skipn_nth_error {A : Type} (l : list A) (i : nat) (x : A) :
  nth_error l i = Some x -> skipn i l = x :: skipn (S i) l.
Proof.
  revert i. induction l as [| y l IH]; intros [| i] H; simpl in *;
    try discriminate.
  - now injection H as ->.
  - now apply IH.
Qed.

Lemma extract_features_loop_refines (capture_source : source)
  (max_port : Z) (todo i : nat) (c : counters) :
  i + todo = List.length d ->
  exists c'' : counters,
    Imp.for_range todo i
      (Imp.extract_features_turn sessions capture_source max_port
         (List.length s + 0) (List.length s + 1) (List.length s + 2)
         (List.length d)) (Imp.scalars_of c) (s ++ Imp.counter_objects c)
    = (match for_each (extract_features_body capture_source max_port)
               (skipn i d) c with
       | Ok c' => Imp.Done (Imp.scalars_of c')
       | Raise e => Imp.Fail (Imp.Python e)
       end, s ++ Imp.counter_objects c'') /\
    (forall c', for_each (extract_features_body capture_source max_port)
                  (skipn i d) c = Ok c' -> c'' = c').
Proof.
  revert i c. induction todo as [| todo IH]; intros i c Hlen.
  - exists c. rewrite skipn_all2 by lia. simpl.
    split; [reflexivity | now intros c' [= ->]].
  - assert (Hi : exists entry, nth_error d i = Some entry).
    { destruct (nth_error d i) as [entry |] eqn:E; [eauto |].
      apply nth_error_None in E. lia. }
    destruct Hi as [entry Hi].
    rewrite (skipn_nth_error _ _ _ Hi). cbn [Imp.for_range for_each].
    unfold Imp.bind at 1.
    match goal with
    | |- context [Imp.extract_features_turn ?a ?b ?c0 ?d0 ?e ?f ?g ?h ?n ?st] =>
        pattern (Imp.extract_features_turn a b c0 d0 e f g h n st)
    end.
    apply (extract_features_turn_refines _ _ _ _ entry _ Hi).
    intros sources destinations peers Hc'.
    destruct (extract_features_body capture_source max_port c entry)
      as [c1 | e]; cbn [bind].
    + specialize (Hc' c1 eq_refl). rewrite <- Hc'. apply IH. lia.
    + exists (mkCounters sources destinations 0 0 0 0 0 peers).
      split; [reflexivity | discriminate].
Qed.

End ExtractFeaturesRefines.

Lemma extract_features_refines (s : Imp.store) (sessions : Imp.ref)
  (d : session_dict) (given : option source) (max_port : Z) :
  nth_error s sessions = Some (Imp.Mapping d) ->
  exists locals : Imp.store,
    Imp.extract_features sessions given max_port s
    = (Imp.of_result (extract_features d given max_port), s ++ locals).
Proof.
  intro Hs. unfold Imp.extract_features, extract_features, resolve.
  assert (Hcs : exists locals,
             match given with
             | Some g => Imp.ret g
             | None => Imp.get_source sessions
             end s
             = (Imp.of_result match given with
                              | Some g => Ok g
                              | None => get_source d
                              end, s ++ locals)).
  { destruct given as [g |]; [exists []; now rewrite app_nil_r |].
    now apply get_source_refines. }
  destruct Hcs as (G & Hcs). unfold Imp.bind at 1. rewrite Hcs.
  destruct (match given with
            | Some g => Ok g
            | None => get_source d
            end) as [cs | e]; cbn [bind Imp.of_result]; [| eauto].
  assert (Hs' : nth_error (s ++ G) sessions = Some (Imp.Mapping d))
    by now apply nth_error_outer.
  enough (H : exists locals : Imp.store,
             Imp.bind (Imp.alloc (Imp.Ints (zeros max_port)))
               (fun num_source_sess =>
                  Imp.bind (Imp.alloc (Imp.Ints (zeros max_port)))
                    (fun num_destination_sess =>
                       Imp.bind (Imp.alloc (Imp.Counts []))
                         (fun other_ips =>
                            Imp.bind (Imp.len sessions)
                              (fun size =>
                                 Imp.bind
                                   (Imp.for_range size 0
                                      (Imp.extract_features_turn sessions cs
                                         max_port num_source_sess
                                         num_destination_sess other_ips size)
                                      (Imp.mkScalars 0 0 0 0 0))
                                   (fun n =>
                                      Imp.bind (Imp.ints_of num_source_sess)
                                        (fun sources =>
                                           Imp.bind
                                             (Imp.ints_of num_destination_sess)
                                             (fun destinations =>
                                                Imp.bind
                                                  (Imp.counts_of other_ips)
                                                  (fun peers =>
                                                     Imp.ret
                                                       (normalise
                                                          (mkCounters sources
                                                             destinations
                                                             (Imp.sessions_seen n)
                                                             (Imp.external_seen n)
                                                             (Imp.tcp_seen n)
                                                             (Imp.udp_seen n)
                                                             (Imp.icmp_seen n)
                                                             peers),
                                                        cs, keys peers)))))))))
               ((s ++ G) ++ [])
             = (Imp.of_result
                  (do c <- aggregate d cs max_port;
                   Ok (normalise c, cs, keys (other_ips c))),
                (s ++ G) ++ locals)).
  { rewrite app_nil_r in H. destruct H as (locals & H).
    exists (G ++ locals). now rewrite app_assoc. }
  repeat (rewrite (bind_done _ _ _ _ _ (alloc_local (s ++ G) _ _));
          cbn [List.length app]).
  erewrite bind_done by (eapply len_outer; eassumption).
  destruct (extract_features_loop_refines (s ++ G) sessions d Hs' cs max_port
              (List.length d) 0 (initial_counters max_port) eq_refl)
    as (c'' & Hloop & Hc'').
  change (Imp.scalars_of (initial_counters max_port))
    with (Imp.mkScalars 0 0 0 0 0) in Hloop.
  change (Imp.counter_objects (initial_counters max_port))
    with [Imp.Ints (zeros max_port); Imp.Ints (zeros max_port);
          Imp.Counts []] in Hloop.
  unfold Imp.bind at 1. rewrite Hloop.
  unfold aggregate. cbn [skipn] in *.
  destruct (for_each (extract_features_body cs max_port) d
              (initial_counters max_port)) as [c |];
    cbn [bind Imp.of_result]; [| eauto].
  specialize (Hc'' c eq_refl). subst c''.
  unfold Imp.counter_objects.
  erewrite bind_done by (eapply ints_of_local; reflexivity).
  erewrite bind_done by (eapply ints_of_local; reflexivity).
  erewrite bind_done by (eapply counts_of_local; reflexivity).
  unfold Imp.ret. destruct c. eauto.
Qed.

(** C9. Run [extract_features] on a store that holds the session
    mapping, then run it again, with the same arguments, on the store the
    first run left.  Both runs end the same way: the same vector, capture
    source and peer list, or the same exception.  The first run changes
    no object that was in the store before it, the mapping included: all
    its writes go to objects it allocated.  And the outcome is the one
    the value-level [extract_features] computes from the mapping. *)
Theorem extract_features_two_runs (st : Imp.store) (session_dict0 : Imp.ref)
  (d : session_dict) (capture_source : option source) (max_port : Z) :
  nth_error st session_dict0 = Some (Imp.Mapping d) ->
  let first := Imp.extract_features session_dict0 capture_source max_port st in
  let second :=
    Imp.extract_features session_dict0 capture_source max_port (snd first) in
  fst first = fst second /\
  firstn (List.length st) (snd first) = st /\
  nth_error (snd first) session_dict0 = Some (Imp.Mapping d) /\
  fst first = Imp.of_result (extract_features d capture_source max_port).
Proof.
  intros Hst first second.
  destruct (extract_features_refines st session_dict0 d capture_source
              max_port Hst) as (locals & H1).
  assert (Hst1 : nth_error (st ++ locals) session_dict0
                 = Some (Imp.Mapping d)) by now apply nth_error_outer.
  destruct (extract_features_refines (st ++ locals) session_dict0 d
              capture_source max_port Hst1) as (locals' & H2).
  subst first second. rewrite H1. cbn [fst snd]. rewrite H2. cbn [fst].
  refine (conj eq_refl (conj _ (conj Hst1 eq_refl))).
  rewrite firstn_app, Nat.sub_diag, firstn_all. simpl. apply app_nil_r.
Qed.

Lemma extract_features_two_runs_witness :
  let st := [Imp.Counts [("kept", 3%nat)]; Imp.Mapping tied_sessions] in
  let first := Imp.extract_features 1%nat None 8%Z st in
  let second := Imp.extract_features 1%nat None 8%Z (snd first) in
  fst first = fst second /\
  firstn (List.length st) (snd first) = st /\
  nth_error (snd first) 1%nat = Some (Imp.Mapping tied_sessions) /\
  fst first = Imp.of_result (extract_features tied_sessions None 8%Z).
Proof.
  apply (extract_features_two_runs
           [Imp.Counts [("kept", 3%nat)]; Imp.Mapping tied_sessions] 1%nat
           tied_sessions None 8%Z).
  reflexivity.
Defined.

(** A run that wrote into the mapping would not pass: after
    [save] on the mapping's reference the second run sees another
    mapping. *)
Lemma overwriting_run_differs :
  let st := [Imp.Mapping tied_sessions] in
  let spoil := Imp.bind (Imp.extract_features 0%nat None 8%Z)
                 (fun r => Imp.bind (Imp.save 0%nat (Imp.Mapping []))
                             (fun _ => Imp.ret r)) in
  fst (spoil st) <> fst (spoil (snd (spoil st))).
Proof. vm_compute. discriminate. Qed.
